(** * Happy Thoughts API: a shallow embedding of [server.js]

    The service keeps one Mongoose model, [Thought], and exposes three
    stateful routes: [GET /thoughts], [POST /thoughts] and
    [PUT /thoughts/:id/like].  Each route handler is embedded as a
    computation in a small state monad over a [World]: the collection in
    insertion order, the ObjectId supply, the wall clock read by
    [new Date()], and the log of operations sent to the store.

    Scope of the model.
    - Request bodies are JSON objects; a missing field reads as
      [undefined].  Field values are any JSON value: [null], booleans,
      numbers, strings, arrays and objects.  A number is given by the text
      [String(n)] produces for it, which is all the handlers ever use of it.
    - The store is reachable: driver failures (connection loss) are not
      modelled, so the [catch] branch of [GET /thoughts] is never taken.
    - A request handler runs atomically with respect to other requests.
    - JavaScript strings are sequences of UTF-16 code units, so [length]
      counts code units, as [value.length] does.
    - [hearts] is an integer (the increments by 1 stay exact), timestamps
      are milliseconds since the epoch.

    Behaviour of Mongoose that the handlers rely on, modelled as documented.
    - [required] on a String path fails on [undefined], [null] and the
      empty string, and runs before the validators of [validate]; the first
      failing validator of a path is the error reported for it.
    - [save] validates the document before anything is sent to the store.
    - Update validators ([runValidators]) do not look at [$inc].
    - [findByIdAndUpdate] casts its id to an ObjectId and throws a
      [CastError] on a string that is not one; it resolves to [null] when
      no document has the id.
    - The [message] path is declared [type: String]: a boolean or a number
      is stored as its text, an object with a non-empty string [_id] as that
      [_id], and an array or any other object fails the cast; a path whose
      cast failed reports the [CastError] and is not validated further.
    - The in-memory document answered by a create keeps the posted code
      units; the driver writes strings as UTF-8, so the stored document has
      U+FFFD in place of every unpaired surrogate.
    - A sort on equal [createdAt] values leaves the order to the store: the
      list route takes the store's order among such records as an input
      ([tie]), so that statements about it hold for every such order. *)

From Stdlib Require Import String Ascii DecimalString DecimalNat.
From stdpp Require Import base numbers list gmap sorting.

Local Open Scope Z_scope.

(** ** JavaScript values *)

(** A JavaScript string: its UTF-16 code units. *)
Abbreviation jsstring := (list N).

(** The code units of an ASCII literal of the source. *)
Definition lit (s : string) : jsstring :=
  map N_of_ascii (list_ascii_of_string s).

(** Number-to-string conversion of a template literal, for a length. *)
Definition decimal (n : nat) : jsstring :=
  lit (NilZero.string_of_uint (Nat.to_uint n)).

#[local] Set Warnings "-register-all".

(** A value of a parsed JSON body.  A number is represented by the text of
    [String(n)], which is never empty: its first code unit and the rest.  An
    object lists its members in the order of the JSON text. *)
Inductive JsValue :=
  | JNull
  | JBool (b : bool)
  | JNum (first : N) (rest : jsstring)
  | JStr (s : jsstring)
  | JArr (items : list JsValue)
  | JObj (members : list (jsstring * JsValue)).

Fixpoint JsValue_eqb (x y : JsValue) : bool :=
  match x, y with
  | JNull, JNull => true
  | JBool a, JBool b => bool_decide (a = b)
  | JNum a r, JNum b r' => bool_decide (a = b) && bool_decide (r = r')
  | JStr a, JStr b => bool_decide (a = b)
  | JArr xs, JArr ys =>
      (fix go (xs ys : list JsValue) : bool :=
         match xs, ys with
         | [], [] => true
         | x :: xs', y :: ys' => JsValue_eqb x y && go xs' ys'
         | _, _ => false
         end) xs ys
  | JObj fs, JObj gs =>
      (fix go (fs gs : list (jsstring * JsValue)) : bool :=
         match fs, gs with
         | [], [] => true
         | (k, x) :: fs', (k', y) :: gs' =>
             bool_decide (k = k') && JsValue_eqb x y && go fs' gs'
         | _, _ => false
         end) fs gs
  | _, _ => false
  end.

Lemma JsValue_eqb_true : forall x y, JsValue_eqb x y = true -> x = y.
Proof.
  fix IH 1.
  intros [|a|a r|a|xs|fs] [|b|b r'|b|ys|gs]; cbn;
    try discriminate; try reflexivity.
  - intros H. apply bool_decide_eq_true in H. congruence.
  - intros H. apply andb_true_iff in H as [H1 H2].
    apply bool_decide_eq_true in H1, H2. congruence.
  - intros H. apply bool_decide_eq_true in H. congruence.
  - intros H. f_equal. revert ys H.
    induction xs as [|x xs IHxs]; intros [|y ys] H;
      try discriminate; [reflexivity|].
    apply andb_true_iff in H as [H1 H2].
    f_equal; [apply IH, H1|apply IHxs, H2].
  - intros H. f_equal. revert gs H.
    induction fs as [|[k x] fs IHfs]; intros [|[k' y] gs] H;
      try discriminate; [reflexivity|].
    apply andb_true_iff in H as [H12 H3].
    apply andb_true_iff in H12 as [H1 H2].
    apply bool_decide_eq_true in H1.
    f_equal; [f_equal; [exact H1|apply IH, H2]|apply IHfs, H3].
Qed.

Lemma JsValue_eqb_refl : forall x, JsValue_eqb x x = true.
Proof.
  fix IH 1. intros [|a|a r|a|xs|fs]; cbn; try reflexivity.
  - apply bool_decide_eq_true. reflexivity.
  - apply andb_true_iff. split; apply bool_decide_eq_true; reflexivity.
  - apply bool_decide_eq_true. reflexivity.
  - induction xs as [|x xs IHxs]; [reflexivity|].
    apply andb_true_iff. split; [apply IH|exact IHxs].
  - induction fs as [|[k x] fs IHfs]; [reflexivity|].
    apply andb_true_iff. split; [|exact IHfs].
    apply andb_true_iff. split; [|apply IH].
    apply bool_decide_eq_true. reflexivity.
Qed.

Global Instance JsValue_eq_dec : EqDecision JsValue.
Proof.
  intros x y. destruct (JsValue_eqb x y) eqn:H.
  - left. apply JsValue_eqb_true, H.
  - right. intros ->. rewrite JsValue_eqb_refl in H. discriminate H.
Defined.

(** [o[k]] on a member list: the last member named [k] ([JSON.parse] keeps
    the last of duplicate names). *)
Fixpoint member (k : jsstring) (o : list (jsstring * JsValue))
  : option JsValue :=
  match o with
  | [] => None
  | (k', v) :: o' =>
      match member k o' with
      | Some v' => Some v'
      | None => if bool_decide (k' = k) then Some v else None
      end
  end.

(** A parsed JSON object; [o.k] is [undefined] ([None]) when [k] is absent. *)
Abbreviation JsObject := (gmap (list N) JsValue).

Definition prop (o : JsObject) (k : string) : option JsValue := o !! lit k.

(** [Array.prototype.includes] on an array of string literals (SameValueZero
    on strings compares code units). *)
Definition includes (xs : list string) (v : option JsValue) : bool :=
  existsb (fun x => bool_decide (v = Some (JStr (lit x)))) xs.

(** ** The Thought schema *)

(** A 12-byte ObjectId, as the number its 24 hex digits denote. *)
Abbreviation ObjectId := N.

Record Thought := mkThought {
  _id : ObjectId;
  message : option JsValue;
  hearts : Z;
  createdAt : Z
}.

Global Instance Thought_eq_dec : EqDecision Thought.
Proof. solve_decision. Defined.

Inductive ErrorKind := KRequired | KUserDefined | KMin.

Record ValidatorError := mkValidatorError {
  path : string;
  kind : ErrorKind;
  err_message : jsstring
}.

(** The error kept for a path: a failed validator, or a [CastError] with
    the value that could not be cast to the type of the path. *)
Inductive PathError :=
  | ValidatorFailed (e : ValidatorError)
  | CastFailed (kind : string) (value : JsValue).

(** The outcome of casting a value to the type of a path. *)
Inductive CastResult :=
  | Casted (value : option JsValue)
  | NotCastable (value : JsValue).

(** The cast of a [type: String] path: [null] and [undefined] pass, a
    string is kept, an object with a non-empty string [_id] gives that
    [_id], a boolean or a number gives its [toString()], and an array or
    any other object (whose [toString] is [Object.prototype.toString], or
    is a member that cannot be called) throws. *)
Definition castString (value : option JsValue) : CastResult :=
  match value with
  | None => Casted None
  | Some JNull => Casted (Some JNull)
  | Some (JStr s) => Casted (Some (JStr s))
  | Some (JBool b) =>
      Casted (Some (JStr (lit (if b then "true" else "false"))))
  | Some (JNum first rest) => Casted (Some (JStr (first :: rest)))
  | Some (JArr items) => NotCastable (JArr items)
  | Some (JObj o) =>
      match member (lit "_id") o with
      | Some (JStr (c :: s)) => Casted (Some (JStr (c :: s)))
      | _ => NotCastable (JObj o)
      end
  end.

(** A document in memory: its fields, and the errors recorded against its
    paths while it was built. *)
Record Document := mkDocument {
  fields : Thought;
  invalid : list (string * PathError)
}.

(** One entry of a path's validator list: the check, and the message built
    from [props.value] when the check fails. *)
Record Validator := mkValidator {
  validator : option JsValue -> bool;
  v_kind : ErrorKind;
  v_message : option JsValue -> jsstring
}.

(** [value.length]; reading it from [null] or [undefined] throws. *)
Definition js_length (value : option JsValue) : option nat :=
  match value with
  | Some (JStr s) => Some (length s)
  | _ => None
  end.

Definition length_or_0 (value : option JsValue) : nat :=
  default 0%nat (js_length value).

(** [required: [true, "Message is required"]] on a String path: the value
    has to be a string of non-zero length. *)
Definition required_validator : Validator :=
  {| validator := fun value =>
       match js_length value with
       | Some n => negb (n =? 0)%nat
       | None => false
       end;
     v_kind := KRequired;
     v_message := fun _ => lit "Message is required" |}.

(** [validator: function (value) { return value.length >= 5; }].  A validator
    that throws counts as failed. *)
Definition min_length_validator : Validator :=
  {| validator := fun value =>
       match js_length value with
       | Some n => (5 <=? n)%nat
       | None => false
       end;
     v_kind := KUserDefined;
     v_message := fun value =>
       lit "Message must be at least 5 characters. Your message has "
         ++ decimal (length_or_0 value) ++ lit " characters." |}.

(** [validator: function (value) { return value.length <= 140; }]. *)
Definition max_length_validator : Validator :=
  {| validator := fun value =>
       match js_length value with
       | Some n => (n <=? 140)%nat
       | None => false
       end;
     v_kind := KUserDefined;
     v_message := fun value =>
       lit
         "The maximum length of a message is 140 characters. Your message has "
         ++ decimal (length_or_0 value) ++ lit " characters." |}.

(** Validators of the [message] path; [required] is put in front of the
    [validate] array. *)
Definition message_validators : list Validator :=
  [required_validator; min_length_validator; max_length_validator].

(** [min: [0, "Hearts cannot be negative"]]. *)
Definition hearts_min (h : Z) : bool := 0 <=? h.

(** Runs the validators of a path in order; the first failure is the error
    of the path.  Validators other than [required] are skipped on
    [undefined]. *)
Fixpoint doValidate (p : string) (vs : list Validator) (value : option JsValue)
  : option ValidatorError :=
  match vs with
  | [] => None
  | v :: vs' =>
      let skipped :=
        match value, v_kind v with
        | None, KRequired => false
        | None, _ => true
        | _, _ => false
        end in
      if skipped || validator v value then doValidate p vs' value
      else Some (mkValidatorError p (v_kind v) (v_message v value))
  end.

(** The error of one path: the one already recorded against it, if any
    (such a path is not validated), else the one its validators give. *)
Definition validatePath (recorded : list (string * PathError)) (p : string)
    (checked : option ValidatorError) : list (string * PathError) :=
  match find (fun e => bool_decide (e.1 = p)) recorded with
  | Some e => [e]
  | None =>
      match checked with
      | Some e => [(p, ValidatorFailed e)]
      | None => []
      end
  end.

(** Document validation: [err.errors], keyed by path. *)
Definition validateDocument (d : Document) : list (string * PathError) :=
  validatePath (invalid d) "message"
    (doValidate "message" message_validators (message (fields d))) ++
  validatePath (invalid d) "hearts"
    (if hearts_min (hearts (fields d)) then None
     else Some (mkValidatorError "hearts" KMin
                  (lit "Hearts cannot be negative"))).

(** Validation of a document whose fields were all cast. *)
Definition validate (t : Thought) : list (string * PathError) :=
  validateDocument (mkDocument t []).

(** ** The store *)

(** Update documents; the service only builds [{ $inc: { hearts: d } }]. *)
Inductive Update :=
  | Inc_hearts (d : Z).

Inductive StoreOp :=
  | OpFind
  | OpInsert (t : Thought)
  | OpFindOneAndUpdate (id : ObjectId) (u : Update).

Record World := mkWorld {
  docs : list Thought;
  nextId : ObjectId;
  clock : Z;
  log : list StoreOp
}.

Definition Handler (A : Type) : Type := World -> A * World.

Definition ret {A} (a : A) : Handler A := fun w => (a, w).

Definition bind {A B} (m : Handler A) (k : A -> Handler B) : Handler B :=
  fun w => let '(a, w') := m w in k a w'.

Notation "x <- m ;; k" := (bind m (fun x => k))
  (at level 100, m at next level, right associativity).

(** Time passing between two events; the clock never runs backwards. *)
Definition tick (elapsed : N) (w : World) : World :=
  mkWorld (docs w) (nextId w) (clock w + Z.of_N elapsed) (log w).

(** [new Thought({ message })]: a fresh [_id], the message cast to a
    string (a failed cast leaves the path unset and records the error), and
    the defaults [hearts: 0] and [createdAt: new Date()]. *)
Definition Thought_new (msg : option JsValue) : Handler Document :=
  fun w =>
    let '(m, errors) :=
      match castString msg with
      | Casted v => (v, [])
      | NotCastable v => (None, [("message"%string, CastFailed "string" v)])
      end in
    (mkDocument (mkThought (nextId w) m 0 (clock w)) errors,
     mkWorld (docs w) (N.succ (nextId w)) (clock w) (log w)).

Definition is_high_surrogate (c : N) : bool :=
  ((55296 <=? c) && (c <=? 56319))%N.

Definition is_low_surrogate (c : N) : bool :=
  ((56320 <=? c) && (c <=? 57343))%N.

(** A string after its trip through UTF-8 to the store and back: surrogate
    pairs are kept, every unpaired surrogate has become U+FFFD. *)
Fixpoint toWellFormed (s : jsstring) : jsstring :=
  match s with
  | [] => []
  | c :: s' =>
      if is_high_surrogate c then
        match s' with
        | c' :: s'' =>
            if is_low_surrogate c' then c :: c' :: toWellFormed s''
            else 65533%N :: toWellFormed s'
        | [] => [65533%N]
        end
      else if is_low_surrogate c then 65533%N :: toWellFormed s'
      else c :: toWellFormed s'
  end.

(** The document as the store holds it. *)
Definition persisted (t : Thought) : Thought :=
  mkThought (_id t)
    (match message t with
     | Some (JStr s) => Some (JStr (toWellFormed s))
     | m => m
     end)
    (hearts t) (createdAt t).

(** [thought.save()]: validates the document and inserts it; a validation
    failure is thrown before anything is sent to the store. *)
Definition Thought_save (d : Document)
  : Handler (list (string * PathError) + unit) :=
  fun w =>
    match validateDocument d with
    | [] => (inr tt,
             mkWorld (docs w ++ [persisted (fields d)]) (nextId w) (clock w)
                     (log w ++ [OpInsert (persisted (fields d))]))
    | errors => (inl errors, w)
    end.

Definition newest_first (a b : Thought) : Prop := createdAt b <= createdAt a.

Global Instance newest_first_dec a b : Decision (newest_first a b).
Proof. unfold newest_first. apply _. Defined.

(** The order of a sort on [{ createdAt: -1 }]: newest first, and among
    records of equal [createdAt] the order the store happens to use, given
    as a rank [tie] (lower first). *)
Definition store_order (tie : Thought -> N) (a b : Thought) : Prop :=
  createdAt b < createdAt a \/
  (createdAt a = createdAt b /\ (tie a <= tie b)%N).

Global Instance store_order_dec tie a b : Decision (store_order tie a b).
Proof. unfold store_order. apply _. Defined.

(** [Thought.find().sort({ createdAt: -1 }).limit(20).exec()]. *)
Definition Thought_find_latest (n : nat) (tie : Thought -> N)
  : Handler (list Thought) :=
  fun w =>
    (take n (merge_sort (store_order tie) (docs w)),
     mkWorld (docs w) (nextId w) (clock w) (log w ++ [OpFind])).

(** Hex digit of a code unit. *)
Definition hex_digit (c : N) : option N :=
  if ((48 <=? c) && (c <=? 57))%N then Some (c - 48)%N
  else if ((97 <=? c) && (c <=? 102))%N then Some (c - 87)%N
  else if ((65 <=? c) && (c <=? 70))%N then Some (c - 55)%N
  else None.

Fixpoint hex_value (acc : N) (s : jsstring) : option N :=
  match s with
  | [] => Some acc
  | c :: s' =>
      match hex_digit c with
      | Some d => hex_value (16 * acc + d)%N s'
      | None => None
      end
  end.

(** Cast of the [:id] route parameter to the type of [_id]: a string of 24
    hex digits; any other string makes the query throw a [CastError]. *)
Definition castObjectId (id : jsstring) : option ObjectId :=
  if (length id =? 24)%nat then hex_value 0%N id else None.

Definition apply_update (u : Update) (t : Thought) : Thought :=
  match u with
  | Inc_hearts d => mkThought (_id t) (message t) (hearts t + d) (createdAt t)
  end.

(** The store's atomic find-and-modify on the first document with this
    [_id]; with [new: true] the modified document is returned. *)
Fixpoint findOneAndUpdate (id : ObjectId) (u : Update) (l : list Thought)
  : option Thought * list Thought :=
  match l with
  | [] => (None, [])
  | t :: l' =>
      if bool_decide (_id t = id) then
        (Some (apply_update u t), apply_update u t :: l')
      else
        let '(r, l'') := findOneAndUpdate id u l' in (r, t :: l'')
  end.

(** Update validators ([runValidators: true]) look at [$set], [$unset],
    [$push], [$addToSet], [$pull] and [$pullAll]; an [$inc] is sent to the
    store unchecked. *)
Definition update_validators (u : Update) : list (string * ValidatorError) :=
  match u with
  | Inc_hearts _ => []
  end.

Inductive Thrown :=
  | CastError (value : jsstring) (at_path : string)
  | ValidationFailed (errors : list (string * ValidatorError)).

(** [Thought.findByIdAndUpdate(id, update, { new: true,
    runValidators: true })]. *)
Definition Thought_findByIdAndUpdate (id : jsstring) (u : Update)
  : Handler (Thrown + option Thought) :=
  fun w =>
    match castObjectId id with
    | None => (inl (CastError id "_id"), w)
    | Some oid =>
        match update_validators u with
        | [] =>
            let '(r, l) := findOneAndUpdate oid u (docs w) in
            (inr r,
             mkWorld l (nextId w) (clock w)
                     (log w ++ [OpFindOneAndUpdate oid u]))
        | errors => (inl (ValidationFailed errors), w)
        end
    end.

(** ** The route handlers *)

Inductive Json :=
  | JThoughts (l : list Thought)
  | JThought (t : Thought)
  | JSaveFailed (msg : jsstring) (errors : list (string * PathError))
  | JError (error : jsstring)
  | JErrorDetails (error : jsstring) (details : Thrown).

Record Response := mkResponse {
  status : Z;
  json : Json
}.

(** [app.get("/thoughts", ...)] *)
Definition get_thoughts (tie : Thought -> N) : Handler Response :=
  latestThoughts <- Thought_find_latest 20 tie ;;
  ret (mkResponse 200 (JThoughts latestThoughts)).

(** [app.post("/thoughts", ...)] *)
Definition post_thoughts (body : JsObject) : Handler Response :=
  thought <- Thought_new (prop body "message") ;;
  saved <- Thought_save thought ;;
  match saved with
  | inr _ => ret (mkResponse 201 (JThought (fields thought)))
  | inl errors =>
      ret (mkResponse 400 (JSaveFailed (lit "Could not save thought") errors))
  end.

(** [app.put("/thoughts/:id/like", ...)] *)
Definition put_like (id : jsstring) (body : JsObject) : Handler Response :=
  let action := prop body "action" in
  if negb (includes ["add"; "remove"]%string action) then
    ret (mkResponse 400 (JError (lit "Invalid action. Use 'add' or 'remove'.")))
  else
    let update :=
      if bool_decide (action = Some (JStr (lit "add")))
      then Inc_hearts 1 else Inc_hearts (-1) in
    updated <- Thought_findByIdAndUpdate id update ;;
    match updated with
    | inr None => ret (mkResponse 404 (JError (lit "Thought not found")))
    | inr (Some updatedThought) =>
        ret (mkResponse 200 (JThought updatedThought))
    | inl err =>
        ret (mkResponse 500 (JErrorDetails (lit "Failed to update like") err))
    end.

(** ** Requests and runs *)

Inductive Request :=
  | GetThoughts (tie : Thought -> N)
  | PostThoughts (body : JsObject)
  | PutLike (id : jsstring) (body : JsObject).

Definition handle (r : Request) : Handler Response :=
  match r with
  | GetThoughts tie => get_thoughts tie
  | PostThoughts body => post_thoughts body
  | PutLike id body => put_like id body
  end.

(** Serves the requests in order; [elapsed] is the time that passes between
    the moment a request is issued and the moment its handler runs. *)
Fixpoint run (rs : list (N * Request)) (w : World) : list Response * World :=
  match rs with
  | [] => ([], w)
  | (elapsed, r) :: rs' =>
      let '(res, w') := handle r (tick elapsed w) in
      let '(out, w'') := run rs' w' in
      (res :: out, w'')
  end.

Definition empty_world : World := mkWorld [] 0%N 0 [].

(** ** Vocabulary of the statements *)

(** *** Answers to a create request *)

(** The three errors the validators of [message] can produce. *)
Definition required_error : ValidatorError :=
  mkValidatorError "message" KRequired (lit "Message is required").

Definition min_length_error (observed : nat) : ValidatorError :=
  mkValidatorError "message" KUserDefined
    (lit "Message must be at least 5 characters. Your message has "
       ++ decimal observed ++ lit " characters.").

Definition max_length_error (observed : nat) : ValidatorError :=
  mkValidatorError "message" KUserDefined
    (lit
       "The maximum length of a message is 140 characters. Your message has "
       ++ decimal observed ++ lit " characters.").

(** The [400] response of the [catch] branch of [POST /thoughts], for a
    validator of [message] that failed. *)
Definition could_not_save (e : ValidatorError) : Response :=
  mkResponse 400
    (JSaveFailed (lit "Could not save thought")
       [("message"%string, ValidatorFailed e)]).

(** The same response, for a message that could not be cast to a string. *)
Definition cast_failure (value : JsValue) : Response :=
  mkResponse 400
    (JSaveFailed (lit "Could not save thought")
       [("message"%string, CastFailed "string" value)]).

(** The message of the document built from a body: the cast value, or
    [undefined] when the cast failed. *)
Definition cast_value (value : option JsValue) : option JsValue :=
  match castString value with
  | Casted v => v
  | NotCastable _ => None
  end.

(** The text of the message, when the cast gives a string. *)
Definition cast_text (value : option JsValue) : option jsstring :=
  match cast_value value with
  | Some (JStr s) => Some s
  | _ => None
  end.

(** The values the cast to a string rejects: arrays, and objects without a
    non-empty string [_id]. *)
Definition uncastable (value : JsValue) : Prop :=
  match value with
  | JArr _ => True
  | JObj o =>
      match member (lit "_id") o with
      | Some (JStr (_ :: _)) => False
      | _ => True
      end
  | _ => False
  end.

(** The outcome of validating a message, by the length read from it. *)
Definition message_verdict (value : option JsValue) : option ValidatorError :=
  match js_length value with
  | None => Some required_error
  | Some n =>
      if (n =? 0)%nat then Some required_error
      else if (n <? 5)%nat then Some (min_length_error n)
      else if (140 <? n)%nat then Some (max_length_error n)
      else None
  end.

(** The constraints of the [message] path, as the spec names them. *)
Inductive FailedConstraint :=
  | MissingValue
  | MinimumLength (observed : nat)
  | MaximumLength (observed : nat).

Definition report (c : FailedConstraint) : ValidatorError :=
  match c with
  | MissingValue => required_error
  | MinimumLength n => min_length_error n
  | MaximumLength n => max_length_error n
  end.

Definition violates (value : option JsValue) (c : FailedConstraint) : Prop :=
  match c with
  | MissingValue =>
      value = None \/ value = Some JNull \/ value = Some (JStr [])
  | MinimumLength n =>
      exists s, value = Some (JStr s) /\ n = length s /\ (1 <= n < 5)%nat
  | MaximumLength n =>
      exists s, value = Some (JStr s) /\ n = length s /\ (140 < n)%nat
  end.

(** The error answered for a message, if any: that of the cast, else that
    of the validators on the cast value. *)
Definition create_verdict (value : option JsValue) : option PathError :=
  match castString value with
  | Casted v => ValidatorFailed <$> message_verdict v
  | NotCastable v => Some (CastFailed "string" v)
  end.

(** A create request that passes validation. *)
Definition acceptable (body : JsObject) : Prop :=
  exists s,
    cast_text (prop body "message") = Some s /\ (5 <= length s <= 140)%nat.

(** *** Records and their updates *)

Definition add_action : option JsValue := Some (JStr (lit "add")).
Definition remove_action : option JsValue := Some (JStr (lit "remove")).

(** The increment built from a valid action. *)
Definition delta_of (action : option JsValue) : Z :=
  if bool_decide (action = add_action) then 1 else -1.

(** [Thought.findById]: the first document with this [_id]. *)
Definition findById (oid : ObjectId) (l : list Thought) : option Thought :=
  find (fun t => bool_decide (_id t = oid)) l.

Definition with_hearts (t : Thought) (h : Z) : Thought :=
  mkThought (_id t) (message t) h (createdAt t).

(** The fields of a record that no route writes after creation. *)
Definition frame (t : Thought) : ObjectId * option JsValue * Z :=
  (_id t, message t, createdAt t).

(** One like changed exactly one record, by [delta] on [hearts]. *)
Definition bumps (delta : Z) (before after : list Thought) : Prop :=
  exists l1 d l2,
    before = l1 ++ d :: l2 /\
    after = l1 ++ with_hearts d (hearts d + delta) :: l2.

(** Strictly newer, by [createdAt]. *)
Definition newer (a b : Thought) : Prop := createdAt b < createdAt a.

(** *** Invariants of the world *)

(** Every stored [_id] was handed out by the ObjectId supply. *)
Definition ids_fresh (w : World) : Prop :=
  Forall (fun d => (_id d < nextId w)%N) (docs w).

(** No stored record is dated after the current clock reading. *)
Definition times_bounded (w : World) : Prop :=
  Forall (fun d => createdAt d <= clock w) (docs w).

(** Both hold initially and are kept by every request. *)
Definition world_ok (w : World) : Prop := ids_fresh w /\ times_bounded w.

(** The declared floor: every stored [hearts] passes the [min] validator.
    It holds initially and is kept by creation, but not by likes. *)
Definition hearts_floor (w : World) : Prop :=
  Forall (fun d => hearts_min (hearts d) = true) (docs w).

(** *** Runs of one kind of request *)

(** Like requests for one record, [elapsed] apart. *)
Definition likes (id : jsstring) (body : JsObject) (elapsed : list N)
  : list (N * Request) :=
  map (fun e => (e, PutLike id body)) elapsed.

(** Create requests, each with the time elapsed before its handler runs. *)
Definition creations (cs : list (N * JsObject)) : list (N * Request) :=
  map (fun c => (c.1, PostThoughts c.2)) cs.

(** *** Sample requests and worlds *)

Definition body_of (k : string) (v : jsstring) : JsObject :=
  {[ lit k := JStr v ]}.

(** A message of [n] code units. *)
Definition text (n : nat) : jsstring := replicate n 97%N.

Definition plain_body : JsObject := body_of "message" (lit "Hello world").

(** The same message, with fields a client might add to forge a record. *)
Definition crafted_body : JsObject :=
  <[ lit "hearts" := JStr (lit "999") ]>
    (<[ lit "createdAt" := JStr (lit "1999-12-31T23:59:59.000Z") ]>
       (<[ lit "_id" := JStr (lit "ffffffffffffffffffffffff") ]> plain_body)).

(** The world after one create: a single record, with [_id] 0. *)
Definition liked_world : World :=
  (post_thoughts plain_body empty_world).2.

Definition id0 : jsstring := lit "000000000000000000000000".
Definition id1 : jsstring := lit "000000000000000000000001".

(** Twenty-five creates, one millisecond apart. *)
Definition hello_25 : list (N * JsObject) := replicate 25 (1%N, plain_body).

(** *** Vocabulary of the further properties *)

(** A stored message that the validators of the schema accept. *)
Definition valid_message (value : option JsValue) : Prop :=
  exists s, value = Some (JStr s) /\ (5 <= length s <= 140)%nat.

Definition messages_valid (w : World) : Prop :=
  Forall (fun d => valid_message (message d)) (docs w).

Definition ids_distinct (w : World) : Prop := NoDup (map _id (docs w)).

(** The documents a like request leaves, from the documents it finds. *)
Definition liked (id : jsstring) (body : JsObject) (l : list Thought)
  : list Thought :=
  if includes ["add"; "remove"]%string (prop body "action") then
    match castObjectId id with
    | Some oid =>
        (findOneAndUpdate oid
           (Inc_hearts (delta_of (prop body "action"))) l).2
    | None => l
    end
  else l.

(** What one like body asks for: [+1], [-1], or nothing when the action is
    not valid. *)
Definition like_step (body : JsObject) : Z :=
  if bool_decide (prop body "action" = add_action) then 1
  else if bool_decide (prop body "action" = remove_action) then -1
  else 0.

Definition net_likes (bodies : list JsObject) : Z :=
  foldr (fun b acc => like_step b + acc) 0 bodies.

(** Like requests for one record with a body each. *)
Definition likes_with (id : jsstring) (ls : list (N * JsObject))
  : list (N * Request) :=
  map (fun l => (l.1, PutLike id l.2)) ls.

(** The records the list route answers with. *)
Definition listing (tie : Thought -> N) (w : World) : list Thought :=
  match json (get_thoughts tie w).1 with
  | JThoughts l => l
  | _ => []
  end.

(** A store that keeps records of equal [createdAt] in insertion order. *)
Definition no_tie : Thought -> N := fun _ => 0%N.

(** A create whose message is an object. *)
Definition object_body : JsObject :=
  {[ lit "message" := JObj [(lit "a", JNum 49 [])] ]}.

(** A message of one unpaired surrogate and four letters. *)
Definition lone_surrogate_body : JsObject :=
  {[ lit "message" := JStr (55357%N :: lit "abcd") ]}.

(** The order of the list route, read on the frames of the records. *)
Definition frame_newest_first (a b : ObjectId * option JsValue * Z) : Prop :=
  b.2 <= a.2.

(** A short session: two creates, one of them rejected, and two likes. *)
Definition session : list (N * Request) :=
  [(1%N, PostThoughts plain_body);
   (2%N, PostThoughts (body_of "message" (text 3)));
   (0%N, PutLike id0 (body_of "action" (lit "add")));
   (4%N, PutLike id0 (body_of "action" (lit "remove")));
   (1%N, GetThoughts no_tie)].

(** ** Validation of the [message] path *)

Arguments lit : simpl never.
Arguments decimal : simpl never.

Lemma doValidate_message value :
  doValidate "message" message_validators value = message_verdict value.
Proof.
  unfold message_verdict.
  destruct value as [[| | |s| |]|]; try reflexivity.
  cbn -[Nat.leb Nat.ltb Nat.eqb].
  destruct (Nat.eqb_spec (length s) 0) as [->|Hne]; [reflexivity|].
  cbn -[Nat.leb Nat.ltb Nat.eqb].
  destruct (Nat.leb_spec 5 (length s)), (Nat.ltb_spec (length s) 5);
    try lia; [|reflexivity].
  cbn -[Nat.leb Nat.ltb Nat.eqb].
  destruct (Nat.leb_spec (length s) 140), (Nat.ltb_spec 140 (length s));
    try lia; reflexivity.
Qed.

Lemma message_verdict_None value :
  message_verdict value = None <->
  exists s, value = Some (JStr s) /\ (5 <= length s <= 140)%nat.
Proof.
  unfold message_verdict. split.
  - destruct value as [[| | |s| |]|]; cbn -[Nat.leb Nat.ltb Nat.eqb];
      try discriminate.
    destruct (Nat.eqb_spec (length s) 0); [discriminate|].
    destruct (Nat.ltb_spec (length s) 5); [discriminate|].
    destruct (Nat.ltb_spec 140 (length s)); [discriminate|].
    intros _. exists s. split; [reflexivity|lia].
  - intros (s & -> & Hlen); cbn -[Nat.leb Nat.ltb Nat.eqb].
    destruct (Nat.eqb_spec (length s) 0); [lia|].
    destruct (Nat.ltb_spec (length s) 5); [lia|].
    destruct (Nat.ltb_spec 140 (length s)); [lia|reflexivity].
Qed.

Lemma message_verdict_short s :
  (1 <= length s < 5)%nat ->
  message_verdict (Some (JStr s)) = Some (min_length_error (length s)).
Proof.
  intros Hlen. unfold message_verdict; cbn -[Nat.leb Nat.ltb Nat.eqb].
  destruct (Nat.eqb_spec (length s) 0); [lia|].
  destruct (Nat.ltb_spec (length s) 5); [reflexivity|lia].
Qed.

Lemma message_verdict_long s :
  (140 < length s)%nat ->
  message_verdict (Some (JStr s)) = Some (max_length_error (length s)).
Proof.
  intros Hlen. unfold message_verdict; cbn -[Nat.leb Nat.ltb Nat.eqb].
  destruct (Nat.eqb_spec (length s) 0); [lia|].
  destruct (Nat.ltb_spec (length s) 5); [lia|].
  destruct (Nat.ltb_spec 140 (length s)); [reflexivity|lia].
Qed.

Lemma cast_text_Some value s :
  cast_text value = Some s <-> castString value = Casted (Some (JStr s)).
Proof.
  unfold cast_text, cast_value.
  destruct (castString value) as [[[| | |s'| |]|]|x]; split;
    try discriminate; congruence.
Qed.

Lemma create_verdict_None value :
  create_verdict value = None <->
  exists s, cast_text value = Some s /\ (5 <= length s <= 140)%nat.
Proof.
  unfold create_verdict. split.
  - destruct (castString value) as [c|x] eqn:Hc; [|discriminate].
    intros H. apply fmap_None, message_verdict_None in H as (s & -> & Hlen).
    exists s. split; [apply cast_text_Some, Hc|exact Hlen].
  - intros (s & Hs & Hlen). apply cast_text_Some in Hs. rewrite Hs.
    apply fmap_None, message_verdict_None. eauto.
Qed.

Lemma create_verdict_short value s :
  cast_text value = Some s ->
  (1 <= length s < 5)%nat ->
  create_verdict value = Some (ValidatorFailed (min_length_error (length s))).
Proof.
  intros Hs Hlen. apply cast_text_Some in Hs. unfold create_verdict.
  rewrite Hs, message_verdict_short by exact Hlen. reflexivity.
Qed.

Lemma create_verdict_long value s :
  cast_text value = Some s ->
  (140 < length s)%nat ->
  create_verdict value = Some (ValidatorFailed (max_length_error (length s))).
Proof.
  intros Hs Hlen. apply cast_text_Some in Hs. unfold create_verdict.
  rewrite Hs, message_verdict_long by exact Hlen. reflexivity.
Qed.

(** What [POST /thoughts] answers and does, by the verdict on the message:
    the document answered is the one in memory, the one stored is the one
    the driver wrote. *)
Lemma post_thoughts_eq body w :
  post_thoughts body w =
    let t := mkThought (nextId w) (cast_value (prop body "message")) 0
               (clock w) in
    match create_verdict (prop body "message") with
    | Some e =>
        (mkResponse 400
           (JSaveFailed (lit "Could not save thought")
              [("message"%string, e)]),
         mkWorld (docs w) (N.succ (nextId w)) (clock w) (log w))
    | None =>
        (mkResponse 201 (JThought t),
         mkWorld (docs w ++ [persisted t]) (N.succ (nextId w)) (clock w)
                 (log w ++ [OpInsert (persisted t)]))
    end.
Proof.
  unfold post_thoughts, bind, Thought_new, Thought_save, validateDocument,
    create_verdict, cast_value.
  destruct (castString (prop body "message")) as [c|x];
    cbn -[doValidate message_validators]; [|reflexivity].
  rewrite doValidate_message.
  destruct (message_verdict c); reflexivity.
Qed.

Lemma post_thoughts_201_iff body w :
  status (post_thoughts body w).1 = 201 <->
  create_verdict (prop body "message") = None.
Proof.
  rewrite post_thoughts_eq; cbn zeta.
  destruct (create_verdict (prop body "message")); cbn;
    split; try discriminate; reflexivity.
Qed.

(** C1: a create request is accepted (answered [201]) exactly when its
    message, as the schema casts it to a string, has 5 to 140 code units; a
    shorter non-empty message, e.g. one of length 4, is answered [400] with
    the minimum-length error, a message longer than 140, e.g. of length 141,
    with the maximum-length error, and the lengths 5 and 140 are accepted.
    For a message that is a string the cast changes nothing. *)
Theorem post_thoughts_length_window (w : World) (body : JsObject) :
  let res := (post_thoughts body w).1 in
  (status res = 201 <->
     exists s, cast_text (prop body "message") = Some s /\
               (5 <= length s <= 140)%nat) /\
  (forall s, cast_text (prop body "message") = Some s ->
     (1 <= length s < 5)%nat ->
     res = could_not_save (min_length_error (length s))) /\
  (forall s, cast_text (prop body "message") = Some s ->
     (140 < length s)%nat ->
     res = could_not_save (max_length_error (length s))) /\
  (forall s, cast_text (prop body "message") = Some s ->
     length s = 5%nat \/ length s = 140%nat ->
     status res = 201) /\
  (forall s, cast_text (Some (JStr s)) = Some s).
Proof.
  cbn zeta. split; [|split; [|split; [|split]]].
  - rewrite post_thoughts_201_iff. apply create_verdict_None.
  - intros s Hs Hlen.
    rewrite post_thoughts_eq, (create_verdict_short _ s Hs Hlen).
    reflexivity.
  - intros s Hs Hlen.
    rewrite post_thoughts_eq, (create_verdict_long _ s Hs Hlen).
    reflexivity.
  - intros s Hs Hlen.
    apply post_thoughts_201_iff, create_verdict_None.
    exists s. split; [exact Hs|lia].
  - reflexivity.
Qed.

Lemma post_thoughts_length_window_witness :
  (post_thoughts (body_of "message" (text 4)) empty_world).1
    = could_not_save (min_length_error 4) /\
  (post_thoughts (body_of "message" (text 141)) empty_world).1
    = could_not_save (max_length_error 141) /\
  status (post_thoughts (body_of "message" (text 5)) empty_world).1 = 201 /\
  status (post_thoughts (body_of "message" (text 140)) empty_world).1 = 201.
Proof.
  split; [|split; [|split]].
  - apply (proj1 (proj2 (post_thoughts_length_window empty_world
             (body_of "message" (text 4)))) (text 4)); [reflexivity|].
    vm_compute; split; lia.
  - apply (proj1 (proj2 (proj2 (post_thoughts_length_window empty_world
             (body_of "message" (text 141))))) (text 141)); [reflexivity|].
    vm_compute; lia.
  - apply (proj1 (proj2 (proj2 (proj2 (post_thoughts_length_window
             empty_world (body_of "message" (text 5)))))) (text 5));
      [reflexivity|].
    left; reflexivity.
  - apply (proj1 (proj2 (proj2 (proj2 (post_thoughts_length_window
             empty_world (body_of "message" (text 140)))))) (text 140));
      [reflexivity|].
    right; reflexivity.
Defined.

(** ** Reading a validation error back *)

Lemma lit_inj s1 s2 : lit s1 = lit s2 -> s1 = s2.
Proof.
  unfold lit. intros H.
  rewrite <- (string_of_list_ascii_of_string s1),
          <- (string_of_list_ascii_of_string s2).
  f_equal. revert H.
  generalize (list_ascii_of_string s1) (list_ascii_of_string s2).
  induction l as [|a l IH]; intros [|b l'] H; try discriminate; [reflexivity|].
  cbn in H. injection H as Hab Hl. f_equal; [|apply IH, Hl].
  rewrite <- (ascii_N_embedding a), <- (ascii_N_embedding b), Hab.
  reflexivity.
Qed.

Lemma uint_of_string_of_uint d :
  option_map Nat.of_uint (NilZero.uint_of_string (NilZero.string_of_uint d))
    = Some (Nat.of_uint d).
Proof.
  destruct d; [reflexivity|..];
    rewrite NilZero.usu by discriminate; reflexivity.
Qed.

Lemma decimal_inj n m : decimal n = decimal m -> n = m.
Proof.
  unfold decimal. intros H. apply lit_inj in H.
  pose proof (uint_of_string_of_uint (Nat.to_uint n)) as Hn.
  pose proof (uint_of_string_of_uint (Nat.to_uint m)) as Hm.
  rewrite H, Hm, !DecimalNat.Unsigned.of_to in Hn. congruence.
Qed.

Lemma report_inj c1 c2 : report c1 = report c2 -> c1 = c2.
Proof.
  destruct c1 as [|n|n], c2 as [|m|m]; cbn; intros H;
    try reflexivity; try discriminate H.
  - injection H as H.
    apply (app_inv_tail (lit " characters.")) in H.
    f_equal. apply decimal_inj, H.
  - injection H as H.
    apply (app_inv_tail (lit " characters.")) in H.
    f_equal. apply decimal_inj, H.
Qed.

Lemma castString_Casted value c :
  castString value = Casted c ->
  c = None \/ c = Some JNull \/ exists s, c = Some (JStr s).
Proof.
  destruct value as [[|b|first rest|s|items|o]|]; cbn;
    try (intros [= <-]; eauto; fail); try discriminate.
  destruct (member (lit "_id") o) as [[| | |[|c' s]| |]|];
    try discriminate; intros [= <-]; eauto.
Qed.

Lemma castString_NotCastable value x :
  castString value = NotCastable x <-> value = Some x /\ uncastable x.
Proof.
  split.
  - destruct value as [[|b|first rest|s|items|o]|]; cbn; try discriminate.
    + intros [= <-]. split; reflexivity.
    + destruct (member (lit "_id") o) as [[| | |[|c' s]| |]|] eqn:Hid;
        try discriminate; intros [= <-]; cbn; rewrite Hid; auto.
  - intros [-> Hx]. destruct x as [|b|first rest|s|items|o]; cbn in *;
      try contradiction; [reflexivity|].
    destruct (member (lit "_id") o) as [[| | |[|c' s]| |]|];
      try contradiction; reflexivity.
Qed.

Lemma message_verdict_Some value e :
  value = None \/ value = Some JNull \/ (exists s, value = Some (JStr s)) ->
  message_verdict value = Some e ->
  exists c, violates value c /\ e = report c.
Proof.
  unfold message_verdict.
  intros [->|[->|[s ->]]]; cbn -[Nat.leb Nat.ltb Nat.eqb].
  - intros [= <-]. exists MissingValue. cbn. auto.
  - intros [= <-]. exists MissingValue. cbn. auto.
  - destruct (Nat.eqb_spec (length s) 0) as [H0|H0].
    { intros [= <-]. exists MissingValue. cbn.
      destruct s; [auto|discriminate H0]. }
    destruct (Nat.ltb_spec (length s) 5).
    { intros [= <-]. exists (MinimumLength (length s)). cbn.
      split; [|reflexivity]. exists s. repeat split; lia. }
    destruct (Nat.ltb_spec 140 (length s)); [|discriminate].
    intros [= <-]. exists (MaximumLength (length s)). cbn.
    split; [|reflexivity]. exists s. repeat split; lia.
Qed.

(** What a rejected create is answered: a validator of [message] that
    failed, or the failure of the cast. *)
Lemma create_verdict_Some value e :
  create_verdict value = Some e ->
  (exists c,
     violates (cast_value value) c /\ e = ValidatorFailed (report c)) \/
  (exists x,
     value = Some x /\ uncastable x /\ e = CastFailed "string" x).
Proof.
  unfold create_verdict, cast_value.
  destruct (castString value) as [c|x] eqn:Hc.
  - intros H. apply fmap_Some in H as (e' & He' & ->).
    destruct (message_verdict_Some c e' (castString_Casted _ _ Hc) He')
      as (k & Hk & ->).
    left. exists k. auto.
  - intros [= <-]. apply castString_NotCastable in Hc as [-> Hx].
    right. exists x. auto.
Qed.

(** The claim of C8 as stated fails on a message that is an object: the
    create is rejected, and the error answered is the failure of the cast,
    not one of the three constraints. *)
Lemma post_thoughts_reports_constraint_counterexample :
  status (post_thoughts object_body empty_world).1 <> 201 /\
  (post_thoughts object_body empty_world).1
    = cast_failure (JObj [(lit "a", JNum 49 [])]) /\
  forall c,
    (post_thoughts object_body empty_world).1 <> could_not_save (report c).
Proof.
  split; [vm_compute; discriminate|].
  assert (H : (post_thoughts object_body empty_world).1
              = cast_failure (JObj [(lit "a", JNum 49 [])]))
    by reflexivity.
  split; [exact H|].
  intros c Hc. rewrite H in Hc. discriminate Hc.
Qed.

(** C8, amended: a create request that is not accepted is answered [400]
    with the one error of the [message] path: the constraint that failed
    (missing value, minimum length or maximum length), whose text carries
    the length observed for the two length constraints and from which the
    constraint and the length can be read back; or, for a message that is an
    array or an object the schema cannot cast to a string, the failure of
    the cast with the rejected value.  Nothing is stored. *)
Theorem post_thoughts_reports_constraint (w : World) (body : JsObject) :
  status (post_thoughts body w).1 <> 201 ->
  ((exists c,
      violates (cast_value (prop body "message")) c /\
      (post_thoughts body w).1 = could_not_save (report c) /\
      (forall c', report c' = report c -> c' = c)) \/
   (exists x,
      prop body "message" = Some x /\
      uncastable x /\
      (post_thoughts body w).1 = cast_failure x)) /\
  docs (post_thoughts body w).2 = docs w /\
  log (post_thoughts body w).2 = log w.
Proof.
  rewrite post_thoughts_201_iff, post_thoughts_eq; cbn zeta.
  destruct (create_verdict (prop body "message")) as [e|] eqn:He;
    [intros _|intros H; contradiction H; reflexivity].
  split; [|split; reflexivity].
  destruct (create_verdict_Some _ _ He) as [(c & Hc & ->)|(x & Hx & Hu & ->)].
  - left. exists c. split; [exact Hc|]. split; [reflexivity|].
    intros c'. apply report_inj.
  - right. exists x. auto.
Qed.

Lemma post_thoughts_reports_constraint_witness :
  (exists c,
     violates (cast_value (prop (body_of "message" (text 141)) "message")) c /\
     (post_thoughts (body_of "message" (text 141)) empty_world).1
       = could_not_save (report c)) \/
  (exists x,
     prop (body_of "message" (text 141)) "message" = Some x /\
     uncastable x).
Proof.
  destruct (post_thoughts_reports_constraint empty_world
              (body_of "message" (text 141)))
    as [[(c & Hc & Hres & _)|(x & Hx & Hu & _)] _].
  - vm_compute. discriminate.
  - left. exists c. split; [exact Hc|exact Hres].
  - right. exists x. split; [exact Hx|exact Hu].
Defined.

(** ** Creation *)

(** The trip to the store keeps the length of a string. *)
Lemma toWellFormed_length_le n :
  forall s, (length s <= n)%nat -> length (toWellFormed s) = length s.
Proof.
  induction n as [|n IH]; intros [|c s] Hlen; cbn in *;
    try reflexivity; try lia.
  destruct (is_high_surrogate c).
  - destruct s as [|c' s]; [reflexivity|].
    destruct (is_low_surrogate c'); cbn [length];
      [rewrite IH by (cbn in Hlen; lia)|rewrite IH by lia]; reflexivity.
  - destruct (is_low_surrogate c); cbn [length]; rewrite IH by lia;
      reflexivity.
Qed.

Lemma toWellFormed_length s : length (toWellFormed s) = length s.
Proof. apply (toWellFormed_length_le (length s)). reflexivity. Qed.

(** A string without surrogates is stored as it is. *)
Lemma toWellFormed_plain s :
  Forall (fun c => is_high_surrogate c = false /\ is_low_surrogate c = false)
    s ->
  toWellFormed s = s.
Proof.
  induction 1 as [|c s [Hh Hl] Hs IH]; [reflexivity|].
  cbn. rewrite Hh, Hl, IH. reflexivity.
Qed.

(** C7: a successful create answers [201] with the full document built in
    memory: its [_id] comes from the server's ObjectId supply (and is new to
    the collection), its [message] is the posted text, its [hearts] is [0],
    and its [createdAt] is the clock reading of the handler, at or after the
    moment the request was issued.  The record stored has the same [_id],
    [hearts = 0] and [createdAt], and the message as the driver wrote it:
    the same text, with U+FFFD for unpaired surrogates if it has any. *)
Theorem post_thoughts_created (w : World) (elapsed : N) (body : JsObject) :
  status (post_thoughts body (tick elapsed w)).1 = 201 ->
  exists t s,
    (post_thoughts body (tick elapsed w)).1 = mkResponse 201 (JThought t) /\
    docs (post_thoughts body (tick elapsed w)).2 = docs w ++ [persisted t] /\
    _id t = nextId w /\
    (ids_fresh w -> Forall (fun d => _id d <> _id t) (docs w)) /\
    cast_text (prop body "message") = Some s /\
    message t = Some (JStr s) /\
    hearts t = 0 /\
    createdAt t = clock w + Z.of_N elapsed /\
    clock w <= createdAt t /\
    persisted t
      = mkThought (nextId w) (Some (JStr (toWellFormed s))) 0
          (clock w + Z.of_N elapsed) /\
    (toWellFormed s = s -> persisted t = t).
Proof.
  intros Hok.
  pose proof (proj1 (post_thoughts_201_iff _ _) Hok) as Hv.
  destruct (proj1 (create_verdict_None _) Hv) as (s & Hs & _).
  rewrite post_thoughts_eq, Hv; cbn zeta.
  assert (Hm : cast_value (prop body "message") = Some (JStr s)).
  { unfold cast_value. apply cast_text_Some in Hs. rewrite Hs. reflexivity. }
  rewrite Hm.
  exists (mkThought (nextId w) (Some (JStr s)) 0 (clock w + Z.of_N elapsed)), s.
  cbn. split; [reflexivity|]. split; [reflexivity|]. split; [reflexivity|].
  split.
  { unfold ids_fresh. intros Hfresh.
    eapply Forall_impl; [exact Hfresh|]. cbn. intros d Hd. lia. }
  split; [exact Hs|]. split; [reflexivity|]. split; [reflexivity|].
  split; [reflexivity|]. split; [lia|]. split; [reflexivity|].
  unfold persisted; cbn. intros ->. reflexivity.
Qed.

Lemma post_thoughts_created_witness :
  exists t,
    (post_thoughts lone_surrogate_body (tick 3 empty_world)).1
      = mkResponse 201 (JThought t) /\
    docs (post_thoughts lone_surrogate_body (tick 3 empty_world)).2
      = [persisted t] /\
    message t = Some (JStr (55357%N :: lit "abcd")) /\
    message (persisted t) = Some (JStr (65533%N :: lit "abcd")) /\
    hearts (persisted t) = 0 /\ clock empty_world <= createdAt t.
Proof.
  destruct (post_thoughts_created empty_world 3 lone_surrogate_body)
    as (t & s & Hres & Hdocs & _ & _ & Hs & Hm & _ & _ & Hc & Hp & _).
  - reflexivity.
  - injection Hs as <-.
    exists t. split; [exact Hres|]. split; [exact Hdocs|].
    split; [exact Hm|]. rewrite Hp. split; [reflexivity|].
    split; [reflexivity|exact Hc].
Defined.

(** C10: the create handler reads the body through [req.body.message] only:
    two bodies with the same [message] get the same response and leave the
    same world, whatever their other fields; a created document always has
    [hearts = 0] and the handler's clock reading as [createdAt]. *)
Theorem post_thoughts_reads_message_only (w : World) (body1 body2 : JsObject) :
  prop body1 "message" = prop body2 "message" ->
  post_thoughts body1 w = post_thoughts body2 w /\
  (forall t, json (post_thoughts body1 w).1 = JThought t ->
     hearts t = 0 /\ createdAt t = clock w /\ _id t = nextId w).
Proof.
  intros Hm. rewrite !post_thoughts_eq, Hm; cbn zeta.
  split; [reflexivity|].
  destruct (create_verdict (prop body2 "message")); cbn;
    intros t [= <-]; cbn; auto.
Qed.

Lemma post_thoughts_reads_message_only_witness :
  crafted_body <> plain_body /\
  post_thoughts crafted_body empty_world = post_thoughts plain_body empty_world.
Proof.
  split.
  - intros H. apply (f_equal (fun b => prop b "hearts")) in H.
    vm_compute in H. discriminate H.
  - apply (post_thoughts_reads_message_only empty_world
             crafted_body plain_body).
    reflexivity.
Defined.

(** ** Likes *)

Lemma includes_add_remove v :
  includes ["add"; "remove"]%string v = true <->
  v = add_action \/ v = remove_action.
Proof.
  unfold includes, add_action, remove_action; cbn -[lit].
  rewrite !orb_true_iff, !bool_decide_eq_true. intuition discriminate.
Qed.

Lemma put_like_invalid id body w :
  prop body "action" <> add_action ->
  prop body "action" <> remove_action ->
  put_like id body w =
    (mkResponse 400 (JError (lit "Invalid action. Use 'add' or 'remove'.")), w).
Proof.
  intros Ha Hr. unfold put_like.
  destruct (includes _ _) eqn:Hin; [|reflexivity].
  apply includes_add_remove in Hin. tauto.
Qed.

Lemma put_like_valid id body w :
  prop body "action" = add_action \/ prop body "action" = remove_action ->
  put_like id body w =
    match castObjectId id with
    | None =>
        (mkResponse 500
           (JErrorDetails (lit "Failed to update like") (CastError id "_id")),
         w)
    | Some oid =>
        let u := Inc_hearts (delta_of (prop body "action")) in
        let w' := mkWorld (findOneAndUpdate oid u (docs w)).2 (nextId w)
                          (clock w) (log w ++ [OpFindOneAndUpdate oid u]) in
        match (findOneAndUpdate oid u (docs w)).1 with
        | None => (mkResponse 404 (JError (lit "Thought not found")), w')
        | Some t => (mkResponse 200 (JThought t), w')
        end
    end.
Proof.
  intros Hv. apply includes_add_remove in Hv.
  unfold put_like, bind, Thought_findByIdAndUpdate, delta_of, add_action.
  rewrite Hv; cbn [negb].
  destruct (castObjectId id) as [oid|]; [|reflexivity].
  destruct (bool_decide _); cbn;
    destruct (findOneAndUpdate oid _ (docs w)) as [[t|] l]; reflexivity.
Qed.

Lemma findOneAndUpdate_missing oid u l :
  findById oid l = None -> findOneAndUpdate oid u l = (None, l).
Proof.
  induction l as [|t l IH]; cbn; [reflexivity|].
  destruct (bool_decide (_id t = oid)); [discriminate|].
  intros H. rewrite (IH H). reflexivity.
Qed.

Lemma findOneAndUpdate_found oid u l d :
  findById oid l = Some d ->
  exists l1 l2,
    l = l1 ++ d :: l2 /\
    findById oid l1 = None /\
    findOneAndUpdate oid u l
      = (Some (apply_update u d), l1 ++ apply_update u d :: l2).
Proof.
  induction l as [|t l IH]; cbn; [discriminate|].
  destruct (bool_decide (_id t = oid)) eqn:Ht.
  - intros [= ->]. exists [], l. auto.
  - intros H. destruct (IH H) as (l1 & l2 & -> & Hl1 & Hupd).
    exists (t :: l1), l2. cbn. rewrite Ht, Hupd. auto.
Qed.

Lemma findById_app_hit oid l1 d l2 :
  findById oid l1 = None -> _id d = oid ->
  findById oid (l1 ++ d :: l2) = Some d.
Proof.
  intros Hl1 Hd. induction l1 as [|t l1 IH]; cbn in *.
  - rewrite bool_decide_eq_true_2 by exact Hd. reflexivity.
  - destruct (bool_decide (_id t = oid)); [discriminate|]. apply IH, Hl1.
Qed.

Lemma findById_id oid l d : findById oid l = Some d -> _id d = oid.
Proof.
  unfold findById. intros H. apply find_some in H as [_ H].
  apply bool_decide_eq_true in H. exact H.
Qed.

(** C5: a like request whose action is neither ["add"] nor ["remove"] (or is
    missing) is answered [400] at once: the world, with all its documents and
    the log of store operations, is left as it was. *)
Theorem put_like_rejects_other_actions
    (w : World) (id : jsstring) (body : JsObject) :
  prop body "action" <> Some (JStr (lit "add")) ->
  prop body "action" <> Some (JStr (lit "remove")) ->
  (put_like id body w).1
    = mkResponse 400 (JError (lit "Invalid action. Use 'add' or 'remove'.")) /\
  (put_like id body w).2 = w /\
  log (put_like id body w).2 = log w /\
  docs (put_like id body w).2 = docs w.
Proof.
  intros Ha Hr. rewrite put_like_invalid by assumption. auto.
Qed.

Lemma put_like_rejects_other_actions_witness :
  (put_like id0 (body_of "action" (lit "toggle")) liked_world).1
    = mkResponse 400 (JError (lit "Invalid action. Use 'add' or 'remove'.")) /\
  (put_like id0 (body_of "action" (lit "toggle")) liked_world).2 = liked_world.
Proof.
  destruct (put_like_rejects_other_actions liked_world id0
              (body_of "action" (lit "toggle"))) as (Hres & Hw & _).
  - vm_compute. discriminate.
  - vm_compute. discriminate.
  - split; [exact Hres|exact Hw].
Defined.

Lemma findById_absent oid l :
  (forall d, d ∈ l -> _id d <> oid) -> findById oid l = None.
Proof.
  intros H. induction l as [|t l IH]; cbn; [reflexivity|].
  rewrite bool_decide_eq_false_2 by (apply H; left).
  apply IH. intros d Hd. apply H. right. exact Hd.
Qed.

Lemma put_like_hit id oid body w d :
  prop body "action" = add_action \/ prop body "action" = remove_action ->
  castObjectId id = Some oid ->
  findById oid (docs w) = Some d ->
  let d' := with_hearts d (hearts d + delta_of (prop body "action")) in
  exists l1 l2,
    docs w = l1 ++ d :: l2 /\
    findById oid l1 = None /\
    put_like id body w =
      (mkResponse 200 (JThought d'),
       mkWorld (l1 ++ d' :: l2) (nextId w) (clock w)
         (log w ++
            [OpFindOneAndUpdate oid
               (Inc_hearts (delta_of (prop body "action")))])).
Proof.
  intros Hv Hid Hd; cbn zeta.
  destruct (findOneAndUpdate_found oid
              (Inc_hearts (delta_of (prop body "action"))) _ _ Hd)
    as (l1 & l2 & Hdocs & Hl1 & Hupd).
  exists l1, l2. split; [exact Hdocs|]. split; [exact Hl1|].
  rewrite put_like_valid by exact Hv. rewrite Hid; cbn zeta.
  rewrite Hupd. reflexivity.
Qed.

Lemma put_like_hit_lookup id oid body w d :
  prop body "action" = add_action \/ prop body "action" = remove_action ->
  castObjectId id = Some oid ->
  findById oid (docs w) = Some d ->
  let d' := with_hearts d (hearts d + delta_of (prop body "action")) in
  (put_like id body w).1 = mkResponse 200 (JThought d') /\
  findById oid (docs (put_like id body w).2) = Some d'.
Proof.
  intros Hv Hid Hd; cbn zeta.
  destruct (put_like_hit id oid body w d Hv Hid Hd)
    as (l1 & l2 & _ & Hl1 & ->); cbn.
  split; [reflexivity|].
  apply findById_app_hit; [exact Hl1|]. cbn. eapply findById_id, Hd.
Qed.

Lemma run_adds id oid body :
  castObjectId id = Some oid ->
  prop body "action" = add_action ->
  forall elapsed w d,
    findById oid (docs w) = Some d ->
    findById oid (docs (run (likes id body elapsed) w).2)
      = Some (with_hearts d (hearts d + Z.of_nat (length elapsed))) /\
    (run (likes id body elapsed) w).1
      = map (fun k => mkResponse 200
                        (JThought (with_hearts d (hearts d + Z.of_nat k))))
            (seq 1 (length elapsed)).
Proof.
  intros Hid Ha.
  induction elapsed as [|e es IH]; intros w d Hd.
  - cbn. rewrite Z.add_0_r. destruct d; split; [exact Hd|reflexivity].
  - cbn [likes map run handle].
    pose proof (put_like_hit_lookup id oid body (tick e w) d
                  (or_introl Ha) Hid Hd) as [Hres Hfind].
    cbn zeta in Hres, Hfind.
    destruct (put_like id body (tick e w)) as [res w1]; cbn in Hres, Hfind.
    specialize (IH w1 _ Hfind). fold (likes id body es).
    destruct (run (likes id body es) w1) as [out w2].
    destruct IH as [IHf IHo]; cbn in IHf, IHo |- *.
    rewrite Ha in *. change (delta_of add_action) with 1 in *.
    split.
    + rewrite IHf. unfold with_hearts; cbn. do 2 f_equal. lia.
    + rewrite Hres, IHo. f_equal.
      rewrite <- (seq_shift (length es) 1), map_map. apply List.map_ext.
      intros k. unfold with_hearts; cbn. do 3 f_equal. lia.
Qed.

(** C2: on an existing record, a like with action ["add"] is answered [200]
    with the record whose [hearts] is one more than before, and that record
    is the one now stored; [N] such requests on a record that starts at
    [hearts = 0] are answered with [hearts = 1, ..., N] and leave
    [hearts = N] in the store. *)
Theorem put_like_add_increments
    (w : World) (id : jsstring) (oid : ObjectId) (body : JsObject)
    (d : Thought) :
  castObjectId id = Some oid ->
  prop body "action" = Some (JStr (lit "add")) ->
  findById oid (docs w) = Some d ->
  (put_like id body w).1
    = mkResponse 200 (JThought (with_hearts d (hearts d + 1))) /\
  findById oid (docs (put_like id body w).2)
    = Some (with_hearts d (hearts d + 1)) /\
  (hearts d = 0 ->
   forall elapsed : list N,
     findById oid (docs (run (likes id body elapsed) w).2)
       = Some (with_hearts d (Z.of_nat (length elapsed))) /\
     (run (likes id body elapsed) w).1
       = map (fun k => mkResponse 200 (JThought (with_hearts d (Z.of_nat k))))
             (seq 1 (length elapsed))).
Proof.
  intros Hid Ha Hd.
  pose proof (put_like_hit_lookup id oid body w d (or_introl Ha) Hid Hd)
    as Hone.
  cbn zeta in Hone. rewrite Ha in Hone.
  change (delta_of add_action) with 1 in Hone.
  split; [apply Hone|]. split; [apply Hone|].
  intros H0 elapsed.
  pose proof (run_adds id oid body Hid Ha elapsed w d Hd) as Hrun.
  rewrite H0 in Hrun. exact Hrun.
Qed.

Lemma put_like_add_increments_witness :
  findById 0%N
    (docs (run (likes id0 (body_of "action" (lit "add")) [1; 0; 2; 5]%N)
               liked_world).2)
  = Some (mkThought 0%N (Some (JStr (lit "Hello world"))) 4 0).
Proof.
  refine (proj1 (proj2 (proj2
    (put_like_add_increments liked_world id0 0%N
       (body_of "action" (lit "add"))
       (mkThought 0%N (Some (JStr (lit "Hello world"))) 0 0)
       _ _ _)) _ [1; 0; 2; 5]%N)); reflexivity.
Defined.

(** C3: the floor [hearts >= 0] declared by the schema is not kept by the
    like route: on a record with [hearts = 0], action ["remove"] is answered
    [200] with [hearts = -1], a value the [min] validator of the schema
    rejects; the [$inc] went to the store although [runValidators] was set,
    and the stored record now has [hearts = -1]. *)
Theorem put_like_remove_breaks_floor
    (w : World) (id : jsstring) (oid : ObjectId) (body : JsObject)
    (d : Thought) :
  castObjectId id = Some oid ->
  prop body "action" = Some (JStr (lit "remove")) ->
  findById oid (docs w) = Some d ->
  hearts d = 0 ->
  (put_like id body w).1 = mkResponse 200 (JThought (with_hearts d (-1))) /\
  findById oid (docs (put_like id body w).2) = Some (with_hearts d (-1)) /\
  log (put_like id body w).2
    = log w ++ [OpFindOneAndUpdate oid (Inc_hearts (-1))] /\
  update_validators (Inc_hearts (-1)) = [] /\
  In "hearts"%string (map fst (validate (with_hearts d (-1)))) /\
  ~ hearts_floor (put_like id body w).2.
Proof.
  intros Hid Hr Hd H0.
  destruct (put_like_hit id oid body w d (or_intror Hr) Hid Hd)
    as (l1 & l2 & _ & Hl1 & Heq).
  cbn zeta in Heq. rewrite Hr, H0 in Heq.
  change (delta_of remove_action) with (-1) in Heq.
  rewrite Heq; cbn. split; [reflexivity|].
  split. { apply findById_app_hit; [exact Hl1|]. cbn. eapply findById_id, Hd. }
  split; [reflexivity|]. split; [reflexivity|].
  split.
  - unfold validate. rewrite map_app, in_app_iff. right. cbn. auto.
  - unfold hearts_floor; cbn. rewrite Forall_app, Forall_cons. cbn.
    intros (_ & Hneg & _). discriminate Hneg.
Qed.

Lemma put_like_remove_breaks_floor_witness :
  hearts_floor liked_world /\
  (put_like id0 (body_of "action" (lit "remove")) liked_world).1
    = mkResponse 200
        (JThought (mkThought 0%N (Some (JStr (lit "Hello world"))) (-1) 0)) /\
  ~ hearts_floor (put_like id0 (body_of "action" (lit "remove")) liked_world).2.
Proof.
  destruct (put_like_remove_breaks_floor liked_world id0 0%N
              (body_of "action" (lit "remove"))
              (mkThought 0%N (Some (JStr (lit "Hello world"))) 0 0))
    as (Hres & _ & _ & _ & _ & Hfloor); try reflexivity.
  split; [|split; [exact Hres|exact Hfloor]].
  repeat constructor.
Defined.

(** ** Unknown ids *)

(** The claim of C6 as stated fails on an id that is not an ObjectId: with
    a valid action and no stored record at all, ["bad-id"] makes the query
    throw, and the [catch] branch answers [500], not [404]. *)
Lemma put_like_unknown_id_counterexample :
  prop (body_of "action" (lit "add")) "action" = Some (JStr (lit "add")) /\
  docs empty_world = [] /\
  (put_like (lit "bad-id") (body_of "action" (lit "add")) empty_world).1
    = mkResponse 500
        (JErrorDetails (lit "Failed to update like")
           (CastError (lit "bad-id") "_id")) /\
  status (put_like (lit "bad-id") (body_of "action" (lit "add"))
            empty_world).1 <> 404.
Proof.
  split; [reflexivity|]. split; [reflexivity|]. split; [reflexivity|].
  vm_compute. discriminate.
Qed.

(** C6, amended: for a like request with a valid action whose id identifies
    no stored record, the answer is [404] "Thought not found" when the id is
    a well-formed ObjectId (24 hex digits), and the documents are left as
    they were; an id that is not a well-formed ObjectId is answered [500]
    by the [catch] branch, without any store operation. *)
Theorem put_like_unknown_id
    (w : World) (id : jsstring) (body : JsObject) :
  prop body "action" = Some (JStr (lit "add")) \/
  prop body "action" = Some (JStr (lit "remove")) ->
  (forall d, d ∈ docs w -> castObjectId id <> Some (_id d)) ->
  match castObjectId id with
  | Some oid =>
      (put_like id body w).1
        = mkResponse 404 (JError (lit "Thought not found")) /\
      docs (put_like id body w).2 = docs w
  | None =>
      put_like id body w
        = (mkResponse 500
             (JErrorDetails (lit "Failed to update like")
                (CastError id "_id")), w)
  end.
Proof.
  intros Hv Hnone. rewrite put_like_valid by exact Hv.
  destruct (castObjectId id) as [oid|]; [|reflexivity].
  cbn zeta. rewrite findOneAndUpdate_missing; [split; reflexivity|].
  apply findById_absent. intros d Hd Heq. apply (Hnone d Hd). congruence.
Qed.

Lemma put_like_unknown_id_witness :
  (put_like id1 (body_of "action" (lit "remove")) liked_world).1
    = mkResponse 404 (JError (lit "Thought not found")) /\
  docs (put_like id1 (body_of "action" (lit "remove")) liked_world).2
    = docs liked_world.
Proof.
  refine (put_like_unknown_id liked_world id1
            (body_of "action" (lit "remove")) _ _).
  - right. reflexivity.
  - intros d Hd. apply list_elem_of_singleton in Hd. subst d.
    vm_compute. discriminate.
Defined.

(** ** What a request may change *)

Lemma findOneAndUpdate_docs oid delta l :
  match (findOneAndUpdate oid (Inc_hearts delta) l).1 with
  | None => (findOneAndUpdate oid (Inc_hearts delta) l).2 = l
  | Some _ => bumps delta l (findOneAndUpdate oid (Inc_hearts delta) l).2
  end.
Proof.
  destruct (findById oid l) as [d|] eqn:Hd.
  - destruct (findOneAndUpdate_found oid (Inc_hearts delta) l d Hd)
      as (l1 & l2 & Hl & _ & ->); cbn.
    exists l1, d, l2. split; [exact Hl|reflexivity].
  - rewrite findOneAndUpdate_missing by exact Hd. reflexivity.
Qed.

Lemma bumps_frame delta before after :
  bumps delta before after -> map frame after = map frame before.
Proof.
  intros (l1 & d & l2 & -> & ->). rewrite !map_app. reflexivity.
Qed.

Lemma put_like_docs id body w :
  (status (put_like id body w).1 <> 200 /\
   docs (put_like id body w).2 = docs w) \/
  (status (put_like id body w).1 = 200 /\
   prop body "action" = add_action /\
   bumps 1 (docs w) (docs (put_like id body w).2)) \/
  (status (put_like id body w).1 = 200 /\
   prop body "action" = remove_action /\
   bumps (-1) (docs w) (docs (put_like id body w).2)).
Proof.
  destruct (includes ["add"; "remove"]%string (prop body "action")) eqn:Hin.
  - apply includes_add_remove in Hin.
    rewrite put_like_valid by exact Hin.
    destruct (castObjectId id) as [oid|];
      [|left; split; [discriminate|reflexivity]].
    cbn zeta.
    pose proof (findOneAndUpdate_docs oid (delta_of (prop body "action"))
                  (docs w)) as Hupd.
    destruct (findOneAndUpdate oid _ (docs w)) as [[t|] l]; cbn in Hupd |- *;
      [|left; split; [discriminate|exact Hupd]].
    right. destruct Hin as [Ha|Hr].
    + left. rewrite Ha in Hupd. auto.
    + right. rewrite Hr in Hupd. auto.
  - left. rewrite put_like_invalid; [split; [discriminate|reflexivity]|..];
      intros H; rewrite H in Hin; discriminate Hin.
Qed.

Lemma handle_frame r w :
  map frame (docs w) `prefix_of` map frame (docs (handle r w).2).
Proof.
  destruct r as [tie|body|id body]; cbn [handle].
  - reflexivity.
  - rewrite post_thoughts_eq; cbn zeta.
    destruct (create_verdict (prop body "message")); cbn; [reflexivity|].
    rewrite map_app. apply prefix_app_r. reflexivity.
  - destruct (put_like_docs id body w) as [[_ ->]|[(_ & _ & H)|(_ & _ & H)]];
      [reflexivity|..]; rewrite (bumps_frame _ _ _ H); reflexivity.
Qed.

Lemma run_frame rs w :
  map frame (docs w) `prefix_of` map frame (docs (run rs w).2).
Proof.
  revert w. induction rs as [|[e r] rs IH]; intros w; cbn [run].
  - reflexivity.
  - pose proof (handle_frame r (tick e w)) as Hstep.
    destruct (handle r (tick e w)) as [res w1].
    specialize (IH w1). destruct (run rs w1) as [out w2].
    cbn in Hstep, IH |- *. etransitivity; eassumption.
Qed.

Lemma run_likes_frame (ls : list (N * jsstring * JsObject)) w :
  map frame (docs (run (map (fun l => (l.1.1, PutLike l.1.2 l.2)) ls) w).2)
    = map frame (docs w).
Proof.
  revert w. induction ls as [|[[e id] body] ls IH]; intros w;
    cbn [map run handle fst snd]; [reflexivity|].
  pose proof (put_like_docs id body (tick e w)) as Hstep.
  destruct (put_like id body (tick e w)) as [res w1].
  specialize (IH w1).
  destruct (run _ w1) as [out w2].
  cbn in Hstep, IH |- *. rewrite IH.
  destruct Hstep as [[_ ->]|[(_ & _ & H)|(_ & _ & H)]];
    [reflexivity|..]; apply (bumps_frame _ _ _ H).
Qed.

(** C9: likes and unlikes never touch [_id], [message] or [createdAt]: after
    any sequence of like requests the stored records carry the same three
    fields, in the same positions; one like request either leaves the
    records as they were (when it is not answered [200]) or changes the
    [hearts] of exactly one record by [+1] (add) or [-1] (remove); and over
    any sequence of requests of any kind the records present at the start
    stay, with those three fields, in front of the ones created since. *)
Theorem only_hearts_change (w : World) :
  (forall ls : list (N * jsstring * JsObject),
     map frame
       (docs (run (map (fun l => (l.1.1, PutLike l.1.2 l.2)) ls) w).2)
     = map frame (docs w)) /\
  (forall id body,
     (status (put_like id body w).1 <> 200 /\
      docs (put_like id body w).2 = docs w) \/
     (status (put_like id body w).1 = 200 /\
      prop body "action" = Some (JStr (lit "add")) /\
      bumps 1 (docs w) (docs (put_like id body w).2)) \/
     (status (put_like id body w).1 = 200 /\
      prop body "action" = Some (JStr (lit "remove")) /\
      bumps (-1) (docs w) (docs (put_like id body w).2))) /\
  (forall rs : list (N * Request),
     map frame (docs w) `prefix_of` map frame (docs (run rs w).2)).
Proof.
  split; [|split].
  - intros ls. apply run_likes_frame.
  - intros id body. apply put_like_docs.
  - intros rs. apply run_frame.
Qed.

(** ** Listing *)

Global Instance newest_first_total : Total newest_first.
Proof. intros a b. unfold newest_first. lia. Qed.

Global Instance newest_first_trans : Transitive newest_first.
Proof. intros a b c. unfold newest_first. lia. Qed.

Global Instance store_order_total tie : Total (store_order tie).
Proof. intros a b. unfold store_order. lia. Qed.

Global Instance store_order_trans tie : Transitive (store_order tie).
Proof. intros a b c. unfold store_order. lia. Qed.

Lemma store_order_newest tie a b : store_order tie a b -> newest_first a b.
Proof. unfold store_order, newest_first. lia. Qed.

Lemma StronglySorted_weaken {A} (R R' : relation A) l :
  (forall x y, R x y -> R' x y) ->
  StronglySorted R l -> StronglySorted R' l.
Proof.
  intros HR. induction 1 as [|x l Hl IH Hx]; constructor; [exact IH|].
  eapply Forall_impl; [exact Hx|]. apply HR.
Qed.

(** Whatever the store's order among equal [createdAt], what it returns is
    a newest-first arrangement of the documents. *)
Lemma store_sorted tie l :
  StronglySorted newest_first (merge_sort (store_order tie) l).
Proof.
  apply (StronglySorted_weaken (store_order tie)).
  - apply store_order_newest.
  - apply StronglySorted_merge_sort; apply _.
Qed.

Lemma get_thoughts_eq tie w :
  get_thoughts tie w =
    (mkResponse 200
       (JThoughts (take 20 (merge_sort (store_order tie) (docs w)))),
     mkWorld (docs w) (nextId w) (clock w) (log w ++ [OpFind])).
Proof. reflexivity. Qed.

Lemma StronglySorted_take {A} (R : relation A) n l :
  StronglySorted R l -> StronglySorted R (take n l).
Proof.
  intros H. rewrite <- (take_drop n l) in H.
  eapply StronglySorted_app_1_l, H.
Qed.

Lemma StronglySorted_drop {A} (R : relation A) n l :
  StronglySorted R l -> StronglySorted R (drop n l).
Proof.
  intros H. rewrite <- (take_drop n l) in H.
  eapply StronglySorted_app_1_r, H.
Qed.

Lemma StronglySorted_reverse {A} (R : relation A) l :
  StronglySorted R l -> StronglySorted (flip R) (reverse l).
Proof.
  induction 1 as [|x l Hl IH Hx]; [constructor|].
  rewrite reverse_cons. apply StronglySorted_app_2.
  - intros y z Hy Hz. apply list_elem_of_singleton in Hz as ->.
    rewrite elem_of_reverse in Hy. rewrite Forall_forall in Hx.
    apply Hx, Hy.
  - exact IH.
  - repeat constructor.
Qed.

(** A strictly descending run of records, all strictly newer than the
    others, is the front of every newest-first ordering of the whole. *)
Lemma newest_prefix_unique top :
  forall rest s,
    StronglySorted newer top ->
    (forall x y, x ∈ top -> y ∈ rest -> newer x y) ->
    StronglySorted newest_first s ->
    s ≡ₚ top ++ rest ->
    take (length top) s = top.
Proof.
  induction top as [|x top IH]; intros rest s Htop Hrest Hs Hperm;
    [reflexivity|].
  destruct s as [|h s];
    [apply Permutation_nil in Hperm; discriminate Hperm|].
  apply StronglySorted_cons in Htop as [Hx Htop].
  apply StronglySorted_cons in Hs as [Hh Hs].
  rewrite Forall_forall in Hx, Hh.
  assert (h = x) as ->.
  { assert (Hhin : h ∈ (x :: top) ++ rest) by (rewrite <- Hperm; left).
    assert (Hxin : x ∈ h :: s) by (rewrite Hperm; left).
    apply elem_of_cons in Hxin as [->|Hxin]; [reflexivity|].
    specialize (Hh x Hxin). unfold newest_first in Hh.
    cbn in Hhin. apply elem_of_cons in Hhin as [->|Hhin]; [reflexivity|].
    apply elem_of_app in Hhin as [Hhin|Hhin].
    - specialize (Hx h Hhin). unfold newer in Hx. lia.
    - specialize (Hrest x h (list_elem_of_here _ _) Hhin).
      unfold newer in Hrest. lia. }
  cbn. f_equal. apply (IH rest); [exact Htop| |exact Hs|].
  - intros a b Ha Hb. apply Hrest; [right; exact Ha|exact Hb].
  - cbn in Hperm. eapply Permutation_cons_inv, Hperm.
Qed.

Lemma run_creations cs :
  forall w,
    Forall (fun c => acceptable c.2) cs ->
    exists created,
      docs (run (creations cs) w).2 = docs w ++ created /\
      length created = length cs /\
      (Forall (fun c => (0 < c.1)%N) cs ->
       StronglySorted (flip newer) created /\
       Forall (fun t => clock w < createdAt t) created).
Proof.
  induction cs as [|[e body] cs IH]; intros w Hok.
  - exists []. cbn. rewrite app_nil_r. repeat split; constructor.
  - apply Forall_cons in Hok as [Hb Hok]. cbn in Hb.
    apply create_verdict_None in Hb.
    cbn [creations map run handle fst snd]. fold (creations cs).
    rewrite post_thoughts_eq, Hb; cbn zeta.
    set (t := persisted _).
    set (w1 := mkWorld _ _ _ _).
    destruct (IH w1 Hok) as (created & Hdocs & Hlen & Hstrict).
    destruct (run (creations cs) w1) as [out w2]. cbn in Hdocs |- *.
    exists (t :: created). rewrite Hdocs, <- app_assoc.
    split; [reflexivity|]. split; [cbn [length]; f_equal; exact Hlen|].
    intros Hpos. apply Forall_cons in Hpos as [He Hpos]. cbn in He.
    destruct (Hstrict Hpos) as [Hsorted Hlater].
    subst w1; cbn in Hlater.
    split.
    + apply StronglySorted_cons. split; [|exact Hsorted].
      eapply Forall_impl; [exact Hlater|]. intros d Hd.
      unfold flip, newer. subst t; cbn [createdAt persisted]. exact Hd.
    + constructor; [subst t; cbn [createdAt persisted tick clock]; lia|].
      eapply Forall_impl; [exact Hlater|]. cbn beta. intros d Hd. lia.
Qed.

Lemma latest_after_creations tie w created :
  times_bounded w ->
  StronglySorted (flip newer) created ->
  Forall (fun t => clock w < createdAt t) created ->
  take (length (drop 5 created))
       (merge_sort (store_order tie) (docs w ++ created))
    = reverse (drop 5 created).
Proof.
  intros Hw Hsorted Hlater.
  rewrite <- (length_reverse (drop 5 created)).
  apply (newest_prefix_unique _ (take 5 created ++ docs w)).
  - apply (StronglySorted_reverse (flip newer)), StronglySorted_drop, Hsorted.
  - intros x y Hx Hy. rewrite elem_of_reverse in Hx.
    apply elem_of_app in Hy as [Hy|Hy].
    + rewrite <- (take_drop 5 created) in Hsorted.
      apply (StronglySorted_app_1_elem_of _ _ _ _ _ Hsorted Hy Hx).
    + unfold times_bounded in Hw. rewrite Forall_forall in Hw, Hlater.
      specialize (Hw y Hy).
      specialize (Hlater x (subseteq_drop _ _ _ Hx)).
      unfold newer. lia.
  - apply store_sorted.
  - rewrite merge_sort_Permutation, reverse_Permutation.
    rewrite <- (take_drop 5 created) at 1.
    rewrite (Permutation_app_comm (docs w)), <- app_assoc.
    rewrite (Permutation_app_comm (take 5 created)), <- app_assoc.
    apply Permutation_app_head, Permutation_app_comm.
Qed.

(** ** Invariants of reachable worlds *)

Lemma empty_world_ok : world_ok empty_world.
Proof. split; constructor. Qed.

Lemma tick_ok e w : world_ok w -> world_ok (tick e w).
Proof.
  intros [Hid Ht]. split; [exact Hid|].
  unfold times_bounded in *; cbn.
  eapply Forall_impl; [exact Ht|]. cbn beta. intros d Hd. lia.
Qed.

Lemma bumps_ok delta w l :
  bumps delta (docs w) l ->
  world_ok w -> world_ok (mkWorld l (nextId w) (clock w) (log w)).
Proof.
  intros (l1 & d & l2 & Hbefore & ->) [Hid Ht].
  unfold world_ok, ids_fresh, times_bounded in *; cbn.
  rewrite Hbefore in Hid, Ht.
  rewrite Forall_app, Forall_cons in Hid, Ht.
  split; rewrite Forall_app, Forall_cons; cbn; tauto.
Qed.

Lemma put_like_world id body w :
  exists ops,
    (put_like id body w).2
      = mkWorld (docs (put_like id body w).2) (nextId w) (clock w)
                (log w ++ ops).
Proof.
  destruct (includes ["add"; "remove"]%string (prop body "action")) eqn:Hin.
  - apply includes_add_remove in Hin. rewrite put_like_valid by exact Hin.
    destruct (castObjectId id) as [oid|]; cbn zeta.
    + destruct (findOneAndUpdate oid _ (docs w)) as [[t|] l]; cbn; eauto.
    + exists []. rewrite app_nil_r. destruct w; reflexivity.
  - exists []. rewrite app_nil_r.
    rewrite put_like_invalid; [destruct w; reflexivity|..];
      intros H; rewrite H in Hin; discriminate Hin.
Qed.

Lemma handle_ok r w : world_ok w -> world_ok (handle r w).2.
Proof.
  intros Hw. destruct r as [tie|body|id body]; cbn [handle].
  - exact Hw.
  - destruct Hw as [Hid Ht]. rewrite post_thoughts_eq; cbn zeta.
    unfold world_ok, ids_fresh, times_bounded in *.
    destruct (create_verdict (prop body "message")); cbn.
    + split; [|exact Ht].
      eapply Forall_impl; [exact Hid|]. cbn beta. intros d Hd. lia.
    + rewrite !Forall_app, !Forall_singleton; cbn.
      split; split; try lia; [|exact Ht].
      eapply Forall_impl; [exact Hid|]. cbn beta. intros d Hd. lia.
  - destruct (put_like_world id body w) as [ops Heq].
    destruct (put_like_docs id body w)
      as [[_ Hsame]|[(_ & _ & H)|(_ & _ & H)]].
    + rewrite Heq, Hsame. destruct Hw as [Hid Ht]. split; assumption.
    + rewrite Heq. apply (bumps_ok _ _ _ H) in Hw.
      destruct Hw as [Hid Ht]. split; assumption.
    + rewrite Heq. apply (bumps_ok _ _ _ H) in Hw.
      destruct Hw as [Hid Ht]. split; assumption.
Qed.

Lemma post_thoughts_keeps_floor body w :
  hearts_floor w -> hearts_floor (post_thoughts body w).2.
Proof.
  unfold hearts_floor. intros Hw. rewrite post_thoughts_eq; cbn zeta.
  destruct (create_verdict (prop body "message")); cbn; [exact Hw|].
  rewrite Forall_app, Forall_singleton. split; [exact Hw|reflexivity].
Qed.

Lemma run_ok rs w : world_ok w -> world_ok (run rs w).2.
Proof.
  revert w. induction rs as [|[e r] rs IH]; intros w Hw; cbn [run].
  - exact Hw.
  - pose proof (handle_ok r _ (tick_ok e w Hw)) as Hstep.
    destruct (handle r (tick e w)) as [res w1].
    specialize (IH w1 Hstep). destruct (run rs w1) as [out w2].
    exact IH.
Qed.

(** ** The list route *)

(** C4: in every state of the store the list route answers [200] with at
    most 20 records, newest first by [createdAt], and no record left out is
    newer than a listed one; the store is only read.  After 25 accepted
    creates it lists exactly 20 records, and when the creates carry distinct
    timestamps, none older than a record stored before, these are the last
    20 created, the most recent first. *)
Theorem get_thoughts_latest_20 (w : World) (tie : Thought -> N) :
  (exists latest,
     get_thoughts tie w
       = (mkResponse 200 (JThoughts latest),
          mkWorld (docs w) (nextId w) (clock w) (log w ++ [OpFind])) /\
     (length latest <= 20)%nat /\
     length latest = (20 `min` length (docs w))%nat /\
     StronglySorted newest_first latest /\
     exists rest,
       docs w ≡ₚ latest ++ rest /\
       forall x y, x ∈ latest -> y ∈ rest -> createdAt y <= createdAt x) /\
  (forall cs : list (N * JsObject),
     length cs = 25%nat ->
     Forall (fun c => acceptable c.2) cs ->
     exists created latest,
       docs (run (creations cs) w).2 = docs w ++ created /\
       length created = 25%nat /\
       (get_thoughts tie (run (creations cs) w).2).1
         = mkResponse 200 (JThoughts latest) /\
       length latest = 20%nat /\
       (times_bounded w -> Forall (fun c => (0 < c.1)%N) cs ->
        latest = reverse (drop 5 created))).
Proof.
  split.
  - exists (take 20 (merge_sort (store_order tie) (docs w))).
    pose proof (store_sorted tie (docs w)) as Hsorted.
    pose proof (merge_sort_Permutation (store_order tie) (docs w)) as Hperm.
    split; [apply get_thoughts_eq|].
    assert (Hlen : length (take 20 (merge_sort (store_order tie) (docs w)))
                   = (20 `min` length (docs w))%nat).
    { rewrite length_take, Hperm. reflexivity. }
    split; [rewrite Hlen; lia|]. split; [exact Hlen|].
    split; [apply StronglySorted_take, Hsorted|].
    exists (drop 20 (merge_sort (store_order tie) (docs w))).
    rewrite take_drop. split; [symmetry; exact Hperm|].
    intros x y Hx Hy.
    rewrite <- (take_drop 20 (merge_sort (store_order tie) (docs w)))
      in Hsorted.
    apply (StronglySorted_app_1_elem_of _ _ _ _ _ Hsorted Hx Hy).
  - intros cs Hlen Hok.
    destruct (run_creations cs w Hok) as (created & Hdocs & Hcreated & Hstrict).
    rewrite Hlen in Hcreated.
    exists created,
      (take 20 (merge_sort (store_order tie) (docs w ++ created))).
    split; [exact Hdocs|]. split; [exact Hcreated|].
    rewrite get_thoughts_eq, Hdocs. split; [reflexivity|].
    split.
    + rewrite length_take, merge_sort_Permutation, length_app. lia.
    + intros Hw Hpos. destruct (Hstrict Hpos) as [Hsorted Hlater].
      rewrite <- (latest_after_creations tie w created Hw Hsorted Hlater).
      rewrite length_drop, Hcreated. reflexivity.
Qed.

Lemma get_thoughts_latest_20_witness :
  exists created latest,
    docs (run (creations hello_25) empty_world).2 = created /\
    (get_thoughts no_tie (run (creations hello_25) empty_world).2).1
      = mkResponse 200 (JThoughts latest) /\
    length latest = 20%nat /\
    latest = reverse (drop 5 created).
Proof.
  destruct (proj2 (get_thoughts_latest_20 empty_world no_tie) hello_25)
    as (created & latest & Hdocs & _ & Hres & Hlen & Hexact).
  - reflexivity.
  - apply Forall_forall. intros c Hc.
    apply elem_of_replicate in Hc as [-> _].
    exists (lit "Hello world"). split; [reflexivity|]. vm_compute. lia.
  - exists created, latest. split; [exact Hdocs|]. split; [exact Hres|].
    split; [exact Hlen|]. apply Hexact.
    + constructor.
    + apply Forall_forall. intros c Hc.
      apply elem_of_replicate in Hc as [-> _]. reflexivity.
Defined.

(** ** Further properties of the create route *)

Global Instance frame_newest_first_dec a b : Decision (frame_newest_first a b).
Proof. unfold frame_newest_first. apply _. Defined.

Lemma missing_value_source value e :
  create_verdict value = Some (ValidatorFailed e) ->
  violates (cast_value value) MissingValue ->
  value = None \/ value = Some JNull \/ value = Some (JStr []).
Proof.
  unfold create_verdict, cast_value.
  destruct value as [[|b|first rest|s|items|o]|]; cbn;
    try (intros _ H; exact H); try discriminate.
  - intros _ [H|[H|H]]; destruct b; discriminate H.
  - intros _ [H|[H|H]]; discriminate H.
  - destruct (member (lit "_id") o) as [[| | |[|c' s]| |]|]; cbn;
      try discriminate.
    intros _ [H|[H|H]]; discriminate H.
Qed.

(** X1: "Message is required" is the answer to exactly the creates whose
    message is missing, [null] or the empty string: an empty message is
    reported as missing, never as a message of 0 characters. *)
Theorem post_thoughts_required_iff (w : World) (body : JsObject) :
  (post_thoughts body w).1 = could_not_save required_error <->
  prop body "message" = None \/
  prop body "message" = Some JNull \/
  prop body "message" = Some (JStr []).
Proof.
  rewrite post_thoughts_eq; cbn zeta. split.
  - destruct (create_verdict (prop body "message")) as [e|] eqn:He; cbn;
      [|discriminate].
    intros [= ->].
    destruct (create_verdict_Some _ _ He)
      as [(c & Hc & Hrep)|(x & _ & _ & Hx)]; [|discriminate Hx].
    injection Hrep as Hrep.
    apply (report_inj MissingValue c) in Hrep. subst c.
    apply (missing_value_source _ _ He), Hc.
  - intros [->|[->| ->]]; reflexivity.
Qed.

(** ** Further properties of the like route *)

Lemma findOneAndUpdate_cons oid u t l :
  (findOneAndUpdate oid u (t :: l)).2 =
    if bool_decide (_id t = oid) then apply_update u t :: l
    else t :: (findOneAndUpdate oid u l).2.
Proof.
  cbn. destruct (bool_decide (_id t = oid)); [reflexivity|].
  destruct (findOneAndUpdate oid u l); reflexivity.
Qed.

Lemma apply_update_id u t : _id (apply_update u t) = _id t.
Proof. destruct u; reflexivity. Qed.

Lemma findOneAndUpdate_other oid oid' u l :
  oid <> oid' ->
  findById oid' (findOneAndUpdate oid u l).2 = findById oid' l.
Proof.
  intros Hne. unfold findById. induction l as [|t l IH]; [reflexivity|].
  rewrite findOneAndUpdate_cons.
  destruct (bool_decide (_id t = oid)) eqn:Ht; cbn [find].
  - apply bool_decide_eq_true in Ht. rewrite apply_update_id.
    rewrite !bool_decide_eq_false_2 by congruence. reflexivity.
  - rewrite IH. reflexivity.
Qed.

Lemma findOneAndUpdate_comm oid1 d1 oid2 d2 l :
  (findOneAndUpdate oid2 (Inc_hearts d2)
     (findOneAndUpdate oid1 (Inc_hearts d1) l).2).2
  = (findOneAndUpdate oid1 (Inc_hearts d1)
       (findOneAndUpdate oid2 (Inc_hearts d2) l).2).2.
Proof.
  induction l as [|t l IH]; [reflexivity|].
  rewrite (findOneAndUpdate_cons oid1), (findOneAndUpdate_cons oid2 _ t).
  destruct (bool_decide (_id t = oid1)) eqn:H1,
           (bool_decide (_id t = oid2)) eqn:H2;
    rewrite !findOneAndUpdate_cons; cbn [apply_update _id];
    rewrite ?H1, ?H2; cbn [apply_update _id hearts message createdAt].
  - do 2 f_equal. lia.
  - reflexivity.
  - reflexivity.
  - rewrite IH. reflexivity.
Qed.

Lemma findOneAndUpdate_twice oid d1 d2 l :
  (findOneAndUpdate oid (Inc_hearts d2)
     (findOneAndUpdate oid (Inc_hearts d1) l).2).2
  = (findOneAndUpdate oid (Inc_hearts (d1 + d2)) l).2.
Proof.
  induction l as [|t l IH]; [reflexivity|].
  rewrite !(findOneAndUpdate_cons oid _ t).
  destruct (bool_decide (_id t = oid)) eqn:Ht;
    rewrite findOneAndUpdate_cons; cbn [apply_update _id];
    rewrite Ht; cbn [apply_update _id hearts message createdAt].
  - do 2 f_equal. lia.
  - rewrite IH. reflexivity.
Qed.

Lemma findOneAndUpdate_zero oid l :
  (findOneAndUpdate oid (Inc_hearts 0) l).2 = l.
Proof.
  induction l as [|t l IH]; [reflexivity|].
  rewrite findOneAndUpdate_cons.
  destruct (bool_decide (_id t = oid)); [|rewrite IH; reflexivity].
  destruct t; cbn. rewrite Z.add_0_r. reflexivity.
Qed.

Lemma includes_false_ne v :
  includes ["add"; "remove"]%string v = false ->
  v <> add_action /\ v <> remove_action.
Proof.
  intros Hin. split; intros H; rewrite H in Hin; discriminate Hin.
Qed.

Lemma put_like_liked id body w :
  docs (put_like id body w).2 = liked id body (docs w).
Proof.
  unfold liked.
  destruct (includes ["add"; "remove"]%string (prop body "action")) eqn:Hin.
  - apply includes_add_remove in Hin. rewrite put_like_valid by exact Hin.
    destruct (castObjectId id) as [oid|]; [|reflexivity]. cbn zeta.
    destruct (findOneAndUpdate oid _ (docs w)) as [[t|] l]; reflexivity.
  - apply includes_false_ne in Hin as [Ha Hr].
    rewrite put_like_invalid by assumption. reflexivity.
Qed.

(** X2: a like request leaves every record it does not address as it was:
    looking up any other id gives the same record before and after,
    whatever the request and however it is answered. *)
Theorem put_like_other_records
    (w : World) (id : jsstring) (body : JsObject) (other : ObjectId) :
  castObjectId id <> Some other ->
  findById other (docs (put_like id body w).2) = findById other (docs w).
Proof.
  intros Hne. rewrite put_like_liked. unfold liked.
  destruct (includes _ _); [|reflexivity].
  destruct (castObjectId id) as [oid|]; [|reflexivity].
  apply findOneAndUpdate_other. congruence.
Qed.

Lemma put_like_other_records_witness :
  findById 0%N
    (docs (put_like id1 (body_of "action" (lit "add")) liked_world).2)
  = findById 0%N (docs liked_world).
Proof.
  apply (put_like_other_records liked_world id1
           (body_of "action" (lit "add")) 0%N).
  vm_compute. discriminate.
Defined.

(** X3: two like requests leave the same documents in whichever order they
    are served, for any ids and bodies (the same record or two records,
    valid or not): the counters do not depend on the order of the likes. *)
Theorem put_like_order_independent
    (w : World) (id1 id2 : jsstring) (body1 body2 : JsObject) :
  docs (put_like id2 body2 (put_like id1 body1 w).2).2
  = docs (put_like id1 body1 (put_like id2 body2 w).2).2.
Proof.
  rewrite !put_like_liked. unfold liked.
  destruct (includes _ (prop body1 "action")),
           (includes _ (prop body2 "action")); try reflexivity.
  destruct (castObjectId id1) as [oid1|], (castObjectId id2) as [oid2|];
    try reflexivity.
  apply findOneAndUpdate_comm.
Qed.

(** X4: a like followed by the opposite like on the same id restores the
    documents exactly, whether or not the id is well formed or known. *)
Theorem put_like_add_remove_round_trip
    (w : World) (id : jsstring) (add remove : JsObject) :
  prop add "action" = Some (JStr (lit "add")) ->
  prop remove "action" = Some (JStr (lit "remove")) ->
  docs (put_like id remove (put_like id add w).2).2 = docs w /\
  docs (put_like id add (put_like id remove w).2).2 = docs w.
Proof.
  intros Ha Hr. rewrite !put_like_liked. unfold liked.
  rewrite Ha, Hr.
  change (includes ["add"; "remove"]%string (Some (JStr (lit "add"))))
    with true.
  change (includes ["add"; "remove"]%string (Some (JStr (lit "remove"))))
    with true.
  change (delta_of (Some (JStr (lit "add")))) with 1.
  change (delta_of (Some (JStr (lit "remove")))) with (-1).
  cbn match. destruct (castObjectId id) as [oid|]; [|split; reflexivity].
  rewrite !findOneAndUpdate_twice.
  change (1 + -1) with 0. change (-1 + 1) with 0.
  rewrite findOneAndUpdate_zero. split; reflexivity.
Qed.

Lemma put_like_add_remove_round_trip_witness :
  docs (put_like id0 (body_of "action" (lit "remove"))
          (put_like id0 (body_of "action" (lit "add")) liked_world).2).2
  = docs liked_world.
Proof.
  apply (put_like_add_remove_round_trip liked_world id0
           (body_of "action" (lit "add"))
           (body_of "action" (lit "remove")));
    reflexivity.
Defined.

Lemma like_step_valid body :
  prop body "action" = add_action \/ prop body "action" = remove_action ->
  like_step body = delta_of (prop body "action").
Proof.
  unfold like_step, delta_of. intros [-> | ->]; reflexivity.
Qed.

Lemma like_step_invalid body :
  prop body "action" <> add_action ->
  prop body "action" <> remove_action ->
  like_step body = 0.
Proof.
  intros Ha Hr. unfold like_step.
  rewrite !bool_decide_eq_false_2 by assumption. reflexivity.
Qed.

Lemma with_hearts_same d : with_hearts d (hearts d) = d.
Proof. destruct d; reflexivity. Qed.

(** X5: after any sequence of like requests for one existing record, with
    any bodies, its [hearts] is the initial value plus the number of ["add"]
    bodies minus the number of ["remove"] bodies; bodies with any other
    action count for nothing, and the counter may go below zero. *)
Theorem likes_net_effect
    (w : World) (id : jsstring) (oid : ObjectId) (d : Thought)
    (ls : list (N * JsObject)) :
  castObjectId id = Some oid ->
  findById oid (docs w) = Some d ->
  findById oid (docs (run (likes_with id ls) w).2)
    = Some (with_hearts d (hearts d + net_likes (map snd ls))).
Proof.
  intros Hid. revert w d.
  induction ls as [|[e body] ls IH]; intros w d Hd.
  - cbn. rewrite Z.add_0_r, with_hearts_same. exact Hd.
  - cbn [likes_with map run handle fst snd net_likes foldr].
    fold (likes_with id ls). fold (net_likes (map snd ls)).
    destruct (includes ["add"; "remove"]%string (prop body "action")) eqn:Hin.
    + apply includes_add_remove in Hin.
      pose proof (put_like_hit_lookup id oid body (tick e w) d Hin Hid Hd)
        as [_ Hfind]. cbn zeta in Hfind.
      destruct (put_like id body (tick e w)) as [res w1]. cbn in Hfind.
      specialize (IH w1 _ Hfind).
      destruct (run (likes_with id ls) w1) as [out w2]. cbn in IH |- *.
      rewrite IH, (like_step_valid body Hin).
      unfold with_hearts; cbn. do 2 f_equal. lia.
    + apply includes_false_ne in Hin as [Ha Hr].
      rewrite put_like_invalid by assumption.
      specialize (IH (tick e w) d Hd).
      destruct (run (likes_with id ls) (tick e w)) as [out w2].
      cbn in IH |- *. rewrite IH, (like_step_invalid body Ha Hr).
      reflexivity.
Qed.

Lemma likes_net_effect_witness :
  findById 0%N
    (docs (run (likes_with id0
                  [(1%N, body_of "action" (lit "remove"));
                   (0%N, body_of "action" (lit "toggle"));
                   (3%N, body_of "action" (lit "remove"));
                   (2%N, body_of "action" (lit "add"))])
               liked_world).2)
  = Some (mkThought 0%N (Some (JStr (lit "Hello world"))) (-1) 0).
Proof.
  apply (likes_net_effect liked_world id0 0%N
           (mkThought 0%N (Some (JStr (lit "Hello world"))) 0 0));
    reflexivity.
Defined.

Lemma hearts_floor_bump w l1 d l2 h :
  docs w = l1 ++ d :: l2 ->
  hearts_floor w ->
  0 <= h ->
  Forall (fun t => hearts_min (hearts t) = true) (l1 ++ with_hearts d h :: l2).
Proof.
  unfold hearts_floor. intros -> Hw Hh.
  rewrite Forall_app, Forall_cons in Hw |- *. cbn.
  unfold hearts_min at 2. rewrite Z.leb_le. tauto.
Qed.

(** X6: the only request that can break the floor [hearts >= 0] is a like
    with action ["remove"] that finds a record with [hearts = 0] (and is
    answered [200] with [hearts = -1]); lists, creates, ["add"] likes and
    every rejected request keep the floor. *)
Theorem hearts_floor_broken_only_by_remove (w : World) (r : Request) :
  hearts_floor w ->
  ~ hearts_floor (handle r w).2 ->
  exists id body oid d,
    r = PutLike id body /\
    prop body "action" = Some (JStr (lit "remove")) /\
    castObjectId id = Some oid /\
    findById oid (docs w) = Some d /\
    hearts d = 0 /\
    (handle r w).1 = mkResponse 200 (JThought (with_hearts d (-1))).
Proof.
  intros Hw Hbroken. destruct r as [tie|body|id body]; cbn [handle] in *.
  - contradiction Hbroken.
  - contradiction Hbroken. apply post_thoughts_keeps_floor, Hw.
  - destruct (includes ["add"; "remove"]%string (prop body "action")) eqn:Hin.
    2:{ apply includes_false_ne in Hin as [Ha Hr].
        rewrite put_like_invalid in Hbroken by assumption.
        contradiction. }
    apply includes_add_remove in Hin.
    destruct (castObjectId id) as [oid|] eqn:Hid.
    2:{ rewrite put_like_valid, Hid in Hbroken by exact Hin.
        contradiction. }
    destruct (findById oid (docs w)) as [d|] eqn:Hd.
    2:{ rewrite put_like_valid, Hid in Hbroken by exact Hin.
        cbn zeta in Hbroken.
        rewrite findOneAndUpdate_missing in Hbroken by exact Hd.
        contradiction. }
    destruct (put_like_hit id oid body w d Hin Hid Hd)
      as (l1 & l2 & Hdocs & _ & Heq). cbn zeta in Heq.
    assert (Hd0 : 0 <= hearts d).
    { unfold hearts_floor in Hw. rewrite Hdocs in Hw.
      rewrite Forall_app, Forall_cons in Hw.
      destruct Hw as (_ & Hd0 & _). apply Z.leb_le, Hd0. }
    rewrite Heq in Hbroken |- *. unfold hearts_floor in Hbroken.
    cbn [snd docs fst] in Hbroken |- *.
    destruct Hin as [Ha|Hr].
    + contradiction Hbroken. rewrite Ha.
      change (delta_of add_action) with 1.
      apply (hearts_floor_bump w); [exact Hdocs|exact Hw|lia].
    + rewrite Hr in Hbroken |- *.
      change (delta_of remove_action) with (-1) in Hbroken |- *.
      destruct (decide (hearts d = 0)) as [H0|H0].
      * exists id, body, oid, d. rewrite H0. auto 10.
      * contradiction Hbroken.
        apply (hearts_floor_bump w); [exact Hdocs|exact Hw|lia].
Qed.

Lemma hearts_floor_broken_only_by_remove_witness :
  exists id body oid d,
    PutLike id0 (body_of "action" (lit "remove")) = PutLike id body /\
    castObjectId id = Some oid /\
    findById oid (docs liked_world) = Some d /\
    hearts d = 0.
Proof.
  destruct (hearts_floor_broken_only_by_remove liked_world
              (PutLike id0 (body_of "action" (lit "remove"))))
    as (id & body & oid & d & Hr & _ & Hid & Hd & H0 & _).
  - repeat constructor.
  - vm_compute. intros H. apply Forall_cons in H as [H _]. discriminate H.
  - exists id, body, oid, d. auto.
Defined.

(** X7: what each route sends to the store and how it answers.  The list
    route answers [200] after one [find]; a create answers [201] after one
    insert, of the answered document as the driver writes it, or [400] with
    nothing sent; a like answers [200] or [404] after one find-and-update,
    or [400] or [500] with nothing sent.  Only [201] and [200] likes change
    the documents. *)
Theorem handle_store_traffic (w : World) (r : Request) :
  match r with
  | GetThoughts _ =>
      status (handle r w).1 = 200 /\
      log (handle r w).2 = log w ++ [OpFind] /\
      docs (handle r w).2 = docs w
  | PostThoughts _ =>
      (exists t,
         (handle r w).1 = mkResponse 201 (JThought t) /\
         log (handle r w).2 = log w ++ [OpInsert (persisted t)] /\
         docs (handle r w).2 = docs w ++ [persisted t]) \/
      (status (handle r w).1 = 400 /\
       log (handle r w).2 = log w /\
       docs (handle r w).2 = docs w)
  | PutLike _ body =>
      (status (handle r w).1 = 200 /\
       exists oid,
         log (handle r w).2
           = log w ++ [OpFindOneAndUpdate oid
                         (Inc_hearts (delta_of (prop body "action")))]) \/
      (status (handle r w).1 = 404 /\
       (exists oid,
          log (handle r w).2
            = log w ++ [OpFindOneAndUpdate oid
                          (Inc_hearts (delta_of (prop body "action")))]) /\
       docs (handle r w).2 = docs w) \/
      ((status (handle r w).1 = 400 \/ status (handle r w).1 = 500) /\
       (handle r w).2 = w)
  end.
Proof.
  destruct r as [tie|body|id body]; cbn [handle].
  - rewrite get_thoughts_eq. auto.
  - rewrite post_thoughts_eq; cbn zeta.
    destruct (create_verdict (prop body "message")); cbn; [auto|].
    left. eexists. auto.
  - destruct (includes ["add"; "remove"]%string (prop body "action")) eqn:Hin.
    + apply includes_add_remove in Hin. rewrite put_like_valid by exact Hin.
      destruct (castObjectId id) as [oid|]; [|right; right; cbn; auto].
      cbn zeta.
      destruct (findById oid (docs w)) as [d|] eqn:Hd.
      * destruct (findOneAndUpdate_found oid
                    (Inc_hearts (delta_of (prop body "action"))) _ _ Hd)
          as (l1 & l2 & _ & _ & ->).
        left. cbn. eauto.
      * rewrite findOneAndUpdate_missing by exact Hd.
        right; left. cbn. eauto.
    + apply includes_false_ne in Hin as [Ha Hr].
      rewrite put_like_invalid by assumption. right; right. cbn. auto.
Qed.

(** X8: the record a create has just stored is the one a like reaches
    through the id the server gave it: an ["add"] like on that id is
    answered [200] with the stored form of the created document and
    [hearts = 1]. *)
Theorem post_thoughts_then_like
    (w : World) (body : JsObject) (id : jsstring) (like : JsObject) :
  ids_fresh w ->
  status (post_thoughts body w).1 = 201 ->
  castObjectId id = Some (nextId w) ->
  prop like "action" = Some (JStr (lit "add")) ->
  exists t,
    (post_thoughts body w).1 = mkResponse 201 (JThought t) /\
    _id t = nextId w /\
    (put_like id like (post_thoughts body w).2).1
      = mkResponse 200 (JThought (with_hearts (persisted t) 1)).
Proof.
  intros Hfresh Hok Hid Ha.
  apply post_thoughts_201_iff in Hok.
  rewrite post_thoughts_eq, Hok; cbn zeta. cbn [fst snd].
  set (t := mkThought (nextId w) _ 0 (clock w)).
  set (w1 := mkWorld _ _ _ _).
  exists t. split; [reflexivity|]. split; [reflexivity|].
  assert (Hd : findById (nextId w) (docs w1) = Some (persisted t)).
  { subst w1; cbn [docs]. apply findById_app_hit; [|reflexivity].
    apply findById_absent. intros d Hd.
    unfold ids_fresh in Hfresh. rewrite Forall_forall in Hfresh.
    specialize (Hfresh d Hd). lia. }
  destruct (put_like_hit_lookup id (nextId w) like w1 (persisted t)
              (or_introl Ha) Hid Hd) as [Hres _].
  cbn zeta in Hres. rewrite Hres, Ha. reflexivity.
Qed.

Lemma post_thoughts_then_like_witness :
  exists t,
    (post_thoughts lone_surrogate_body liked_world).1
      = mkResponse 201 (JThought t) /\
    (put_like id1 (body_of "action" (lit "add"))
       (post_thoughts lone_surrogate_body liked_world).2).1
    = mkResponse 200
        (JThought
           (mkThought 1%N (Some (JStr (65533%N :: lit "abcd"))) 1 0)).
Proof.
  destruct (post_thoughts_then_like liked_world lone_surrogate_body id1
              (body_of "action" (lit "add")))
    as (t & Hres & _ & Hlike); try reflexivity.
  - repeat constructor.
  - exists t. split; [exact Hres|]. rewrite Hlike.
    injection Hres as <-. reflexivity.
Defined.

(** ** Further invariants *)

Lemma bumps_messages delta before after :
  bumps delta before after ->
  Forall (fun d => valid_message (message d)) before ->
  Forall (fun d => valid_message (message d)) after.
Proof.
  intros (l1 & d & l2 & -> & ->).
  rewrite !Forall_app, !Forall_cons. cbn. tauto.
Qed.

Lemma handle_keeps_messages r w :
  messages_valid w -> messages_valid (handle r w).2.
Proof.
  unfold messages_valid. intros Hw.
  destruct r as [tie|body|id body]; cbn [handle].
  - exact Hw.
  - rewrite post_thoughts_eq; cbn zeta.
    destruct (create_verdict (prop body "message")) eqn:Hv;
      cbn [snd docs]; [exact Hw|].
    rewrite Forall_app, Forall_singleton. split; [exact Hw|].
    apply create_verdict_None in Hv as (s & Hs & Hlen).
    apply cast_text_Some in Hs. unfold cast_value, persisted.
    rewrite Hs. cbn [message].
    exists (toWellFormed s). split; [reflexivity|].
    rewrite toWellFormed_length. exact Hlen.
  - destruct (put_like_docs id body w)
      as [[_ ->]|[(_ & _ & H)|(_ & _ & H)]];
      [exact Hw|..]; apply (bumps_messages _ _ _ H Hw).
Qed.

(** X9: every stored message is a string of 5 to 140 code units, and stays
    one: no sequence of requests stores a message the validators reject or
    changes a stored message into one. *)
Theorem run_keeps_messages_valid (w : World) (rs : list (N * Request)) :
  messages_valid w -> messages_valid (run rs w).2.
Proof.
  revert w. induction rs as [|[e r] rs IH]; intros w Hw; cbn [run].
  - exact Hw.
  - pose proof (handle_keeps_messages r (tick e w) Hw) as Hstep.
    destruct (handle r (tick e w)) as [res w1].
    specialize (IH w1 Hstep). destruct (run rs w1) as [out w2].
    exact IH.
Qed.

Lemma run_keeps_messages_valid_witness :
  messages_valid (run session empty_world).2.
Proof.
  apply (run_keeps_messages_valid empty_world session). constructor.
Defined.

Lemma frame_ids l l' :
  map frame l = map frame l' -> map _id l = map _id l'.
Proof.
  intros H.
  change (map _id l) with (map (fun t => (frame t).1.1) l).
  change (map _id l') with (map (fun t => (frame t).1.1) l').
  rewrite <- !(map_map frame (fun p => p.1.1)), H. reflexivity.
Qed.

Lemma handle_keeps_ids r w :
  ids_fresh w -> ids_distinct w -> ids_distinct (handle r w).2.
Proof.
  unfold ids_distinct. intros Hfresh Hw.
  destruct r as [tie|body|id body]; cbn [handle].
  - exact Hw.
  - rewrite post_thoughts_eq; cbn zeta.
    destruct (create_verdict (prop body "message")); cbn; [exact Hw|].
    rewrite map_app. apply NoDup_app. split; [exact Hw|].
    split; [|apply NoDup_singleton].
    intros x Hx Hx'. cbn in Hx'. apply list_elem_of_singleton in Hx'.
    subst x. apply list_elem_of_In, in_map_iff in Hx as (d & Hd & Hin).
    unfold ids_fresh in Hfresh. rewrite Forall_forall in Hfresh.
    apply list_elem_of_In in Hin. specialize (Hfresh d Hin). lia.
  - destruct (put_like_docs id body w)
      as [[_ ->]|[(_ & _ & H)|(_ & _ & H)]];
      [exact Hw|..]; rewrite (frame_ids _ _ (bumps_frame _ _ _ H));
      exact Hw.
Qed.

(** X10: in every world reached from one whose ids are distinct and below
    the ObjectId supply and whose records are not dated after the clock,
    the same holds: two stored records never share an [_id], and no record
    is dated in the future. *)
Theorem run_keeps_ids_distinct (w : World) (rs : list (N * Request)) :
  world_ok w -> ids_distinct w ->
  world_ok (run rs w).2 /\ ids_distinct (run rs w).2.
Proof.
  intros Hok Hdistinct. split; [apply run_ok, Hok|].
  revert w Hok Hdistinct. induction rs as [|[e r] rs IH]; intros w Hok Hw;
    cbn [run]; [exact Hw|].
  pose proof (handle_ok r _ (tick_ok e w Hok)) as Hok1.
  pose proof (handle_keeps_ids r (tick e w) (proj1 Hok) Hw) as Hstep.
  destruct (handle r (tick e w)) as [res w1].
  specialize (IH w1 Hok1 Hstep). destruct (run rs w1) as [out w2].
  exact IH.
Qed.

Lemma run_keeps_ids_distinct_witness :
  world_ok (run session empty_world).2 /\
  ids_distinct (run session empty_world).2.
Proof.
  apply (run_keeps_ids_distinct empty_world session).
  - apply empty_world_ok.
  - constructor.
Defined.

(** ** Further properties of the list route *)

Lemma listing_eq tie w :
  listing tie w = take 20 (merge_sort (store_order tie) (docs w)).
Proof. reflexivity. Qed.

Lemma StronglySorted_map {A B} (f : A -> B) (R : relation A)
    (R' : relation B) l :
  (forall x y, R x y -> R' (f x) (f y)) ->
  StronglySorted R l -> StronglySorted R' (map f l).
Proof.
  intros HR. induction 1 as [|x l Hl IH Hx]; cbn; constructor; [exact IH|].
  rewrite Forall_forall in Hx. rewrite Forall_forall. intros y Hy.
  apply list_elem_of_In, in_map_iff in Hy as (x' & <- & Hin).
  apply HR, Hx, list_elem_of_In, Hin.
Qed.

Lemma NoDup_map_eq {A B} (g : A -> B) l x y :
  NoDup (map g l) -> x ∈ l -> y ∈ l -> g x = g y -> x = y.
Proof.
  induction l as [|a l IH]; cbn; intros Hnd Hx Hy Hg.
  - apply elem_of_nil in Hx. contradiction.
  - apply NoDup_cons in Hnd as [Ha Hnd].
    apply elem_of_cons in Hx as [->|Hx], Hy as [->|Hy];
      [reflexivity| | |apply IH; assumption].
    + contradiction Ha. rewrite Hg.
      apply list_elem_of_In, in_map, list_elem_of_In, Hy.
    + contradiction Ha. rewrite <- Hg.
      apply list_elem_of_In, in_map, list_elem_of_In, Hx.
Qed.

(** The dates of a newest-first arrangement are the same for every such
    arrangement of the same documents. *)
Lemma sorted_dates_unique s s' :
  StronglySorted newest_first s ->
  StronglySorted newest_first s' ->
  map createdAt s ≡ₚ map createdAt s' ->
  map createdAt s = map createdAt s'.
Proof.
  intros Hs Hs' Hperm.
  apply (StronglySorted_unique_strong (flip Z.le)); [| | |exact Hperm].
  - intros x y _ _. unfold flip. lia.
  - apply (StronglySorted_map createdAt newest_first); [|exact Hs].
    intros x y H. exact H.
  - apply (StronglySorted_map createdAt newest_first); [|exact Hs'].
    intros x y H. exact H.
Qed.

(** With pairwise distinct dates there is one newest-first arrangement. *)
Lemma sorted_frames_unique s s' :
  StronglySorted newest_first s ->
  StronglySorted newest_first s' ->
  map frame s ≡ₚ map frame s' ->
  NoDup (map createdAt s) ->
  map frame s = map frame s'.
Proof.
  intros Hs Hs' Hperm Hnd.
  apply (StronglySorted_unique_strong frame_newest_first);
    [| | |exact Hperm].
  - intros x y Hx Hy Hxy Hyx. rewrite <- Hperm in Hy.
    apply (NoDup_map_eq snd (map frame s)); [|exact Hx|exact Hy|].
    + rewrite map_map. exact Hnd.
    + unfold frame_newest_first in *. lia.
  - apply (StronglySorted_map frame newest_first); [|exact Hs].
    intros x y H. exact H.
  - apply (StronglySorted_map frame newest_first); [|exact Hs'].
    intros x y H. exact H.
Qed.

Lemma frame_dates l l' :
  map frame l = map frame l' -> map createdAt l = map createdAt l'.
Proof.
  intros H.
  change (map createdAt l) with (map (fun t => (frame t).2) l).
  change (map createdAt l') with (map (fun t => (frame t).2) l').
  rewrite <- !(map_map frame snd), H. reflexivity.
Qed.

(** X11: likes never change the dates the list shows: after any sequence of
    like requests the list route answers with records of the same
    [createdAt], in the same order, whatever order the store uses among
    records of equal date before and after.  When the stored dates are
    pairwise distinct, the records listed are the same, in the same order,
    up to their [hearts]. *)
Theorem likes_keep_listing
    (w : World) (ls : list (N * jsstring * JsObject))
    (tie tie' : Thought -> N) :
  map createdAt
    (listing tie'
       (run (map (fun l => (l.1.1, PutLike l.1.2 l.2)) ls) w).2)
  = map createdAt (listing tie w) /\
  (NoDup (map createdAt (docs w)) ->
   map frame
     (listing tie'
        (run (map (fun l => (l.1.1, PutLike l.1.2 l.2)) ls) w).2)
   = map frame (listing tie w)).
Proof.
  pose proof (run_likes_frame ls w) as Hframe.
  set (w' := (run _ w).2) in *.
  rewrite !listing_eq.
  pose proof (merge_sort_Permutation (store_order tie) (docs w)) as Hp.
  pose proof (merge_sort_Permutation (store_order tie') (docs w')) as Hp'.
  split.
  - rewrite <- !firstn_map. f_equal.
    apply sorted_dates_unique; [apply store_sorted..|].
    rewrite Hp, Hp', (frame_dates _ _ Hframe). reflexivity.
  - intros Hnd. rewrite <- !firstn_map. f_equal.
    apply sorted_frames_unique; [apply store_sorted..| |].
    + rewrite Hp, Hp', Hframe. reflexivity.
    + rewrite Hp', (frame_dates _ _ Hframe). exact Hnd.
Qed.

Lemma likes_keep_listing_witness :
  map frame
    (listing (fun t => _id t)
       (run [(1%N, PutLike id0 (body_of "action" (lit "add")))]
            liked_world).2)
  = map frame (listing no_tie liked_world).
Proof.
  apply (proj2 (likes_keep_listing liked_world
                  [(1%N, id0, body_of "action" (lit "add"))]
                  no_tie (fun t => _id t))).
  apply NoDup_singleton.
Defined.

(** X12: a thought created strictly later than every stored record is the
    first record of the list that follows, in the form the store holds it,
    whatever order the store uses among records of equal date. *)
Theorem post_thoughts_listed_first
    (w : World) (elapsed : N) (body : JsObject) (tie : Thought -> N) :
  times_bounded w ->
  (0 < elapsed)%N ->
  status (post_thoughts body (tick elapsed w)).1 = 201 ->
  exists t rest,
    (post_thoughts body (tick elapsed w)).1 = mkResponse 201 (JThought t) /\
    listing tie (post_thoughts body (tick elapsed w)).2
      = persisted t :: rest.
Proof.
  intros Hw He Hok. apply post_thoughts_201_iff in Hok.
  rewrite post_thoughts_eq, Hok; cbn zeta. cbn [fst snd].
  set (t := mkThought _ _ _ _).
  exists t. rewrite listing_eq; cbn [docs].
  change (docs (tick elapsed w)) with (docs w).
  assert (Htop : take (length [persisted t])
                   (merge_sort (store_order tie) (docs w ++ [persisted t]))
                 = [persisted t]).
  { apply (newest_prefix_unique [persisted t] (docs w)).
    - repeat constructor.
    - intros x y Hx Hy. apply list_elem_of_singleton in Hx. subst x.
      unfold times_bounded in Hw. rewrite Forall_forall in Hw.
      specialize (Hw y Hy). unfold newer. subst t; cbn. lia.
    - apply store_sorted.
    - rewrite merge_sort_Permutation. apply Permutation_app_comm. }
  destruct (merge_sort (store_order tie) (docs w ++ [persisted t]))
    as [|h s]; [discriminate Htop|].
  cbn in Htop. injection Htop as ->.
  exists (take 19 s). split; reflexivity.
Qed.

Lemma post_thoughts_listed_first_witness :
  exists t rest,
    (post_thoughts lone_surrogate_body (tick 7 liked_world)).1
      = mkResponse 201 (JThought t) /\
    listing no_tie (post_thoughts lone_surrogate_body (tick 7 liked_world)).2
      = persisted t :: rest.
Proof.
  apply (post_thoughts_listed_first liked_world 7 lone_surrogate_body no_tie).
  - vm_compute. constructor; [discriminate|constructor].
  - reflexivity.
  - reflexivity.
Defined.

(** X13: while the store holds at most 20 records the list route leaves
    none out: its answer is a rearrangement of all the stored records. *)
Theorem listing_complete (w : World) (tie : Thought -> N) :
  (length (docs w) <= 20)%nat ->
  listing tie w ≡ₚ docs w.
Proof.
  intros Hlen. rewrite listing_eq, take_ge.
  - apply merge_sort_Permutation.
  - rewrite merge_sort_Permutation. exact Hlen.
Qed.

Lemma listing_complete_witness :
  listing no_tie (run session empty_world).2
    ≡ₚ docs (run session empty_world).2.
Proof.
  apply (listing_complete (run session empty_world).2 no_tie).
  vm_compute. lia.
Defined.
